(** * The nginx status input: a shallow embedding of [plugins/inputs/nginx/nginx.go]

    The plugin polls a list of status URLs, checks the HTTP status and the
    content type of each response, parses the plain-text stub-status page
    and hands seven counters plus a [{server, port}] tag pair to the
    accumulator.

    Go strings are byte sequences: they are [list ascii] wherever the code
    inspects them byte by byte (response bodies, lines, tokens, host names)
    and [string] where they are only compared, stored or printed (map keys,
    schemes, messages).  Unsigned 64-bit integers are [Z] with the
    wrap-around written out.  Maps are [gmap]. *)

From Stdlib Require Import ZArith Lia Ascii String List.
From stdpp Require Import base option list strings gmap fin_maps.

Abbreviation bytes := (list ascii).

(** The byte sequence of a string literal. *)
Definition B (s : string) : bytes := list_ascii_of_string s.
(** The string held by a byte sequence. *)
Definition S_ (b : bytes) : string := string_of_list_ascii b.

Definition byteZ (c : ascii) : Z := Z.of_N (N_of_ascii c).

Definition LF : ascii := ascii_of_nat 10.
Definition TAB : ascii := ascii_of_nat 9.

(** ** package unicode/utf8 *)
Module utf8.
Local Open Scope Z_scope.

Definition RuneError : Z := 0xFFFD.
Definition RuneSelf : Z := 0x80.
Definition UTFMax : nat := 4.

(** Continuation bytes are [10xxxxxx]. *)
Definition locb : Z := 0x80.
Definition hicb : Z := 0xBF.

(** [first] and [acceptRanges]: for a leading byte, the length of the
    sequence it starts and the range its second byte must lie in;
    [None] for a byte that cannot start a multi-byte sequence. *)
Definition first (s0 : Z) : option (nat * (Z * Z)) :=
  if (0xC2 <=? s0) && (s0 <=? 0xDF) then Some (2%nat, (locb, hicb))
  else if s0 =? 0xE0 then Some (3%nat, (0xA0, hicb))
  else if (0xE1 <=? s0) && (s0 <=? 0xEC) then Some (3%nat, (locb, hicb))
  else if s0 =? 0xED then Some (3%nat, (locb, 0x9F))
  else if (0xEE <=? s0) && (s0 <=? 0xEF) then Some (3%nat, (locb, hicb))
  else if s0 =? 0xF0 then Some (4%nat, (0x90, hicb))
  else if (0xF1 <=? s0) && (s0 <=? 0xF3) then Some (4%nat, (locb, hicb))
  else if s0 =? 0xF4 then Some (4%nat, (locb, 0x8F))
  else None.

Definition isCont (b : Z) : bool := (locb <=? b) && (b <=? hicb).

(** [utf8.DecodeRuneInString]: the rune at the head of [s] and its width
    in bytes; [(RuneError, 1)] for an invalid or truncated encoding and
    [(RuneError, 0)] for the empty string. *)
Definition DecodeRune (s : bytes) : Z * nat :=
  match map byteZ s with
  | [] => (RuneError, 0%nat)
  | s0 :: rest =>
    if s0 <? RuneSelf then (s0, 1%nat)
    else
      match first s0 with
      | None => (RuneError, 1%nat)
      | Some (sz, (lo, hi)) =>
        if (length s <? sz)%nat then (RuneError, 1%nat)
        else
          match rest with
          | s1 :: rest1 =>
            if (s1 <? lo) || (hi <? s1) then (RuneError, 1%nat)
            else if (sz <=? 2)%nat then
              (Z.lor (Z.shiftl (Z.land s0 0x1F) 6) (Z.land s1 0x3F), 2%nat)
            else
              match rest1 with
              | s2 :: rest2 =>
                if negb (isCont s2) then (RuneError, 1%nat)
                else if (sz <=? 3)%nat then
                  (Z.lor (Z.lor (Z.shiftl (Z.land s0 0x0F) 12)
                                (Z.shiftl (Z.land s1 0x3F) 6))
                         (Z.land s2 0x3F), 3%nat)
                else
                  match rest2 with
                  | s3 :: _ =>
                    if negb (isCont s3) then (RuneError, 1%nat)
                    else
                      (Z.lor (Z.lor (Z.lor (Z.shiftl (Z.land s0 0x07) 18)
                                           (Z.shiftl (Z.land s1 0x3F) 12))
                                    (Z.shiftl (Z.land s2 0x3F) 6))
                             (Z.land s3 0x3F), 4%nat)
                  | [] => (RuneError, 1%nat)
                  end
              | [] => (RuneError, 1%nat)
              end
          | [] => (RuneError, 1%nat)
          end
      end
  end.

(** [utf8.RuneStart]: the byte is not a continuation byte. *)
Definition RuneStart (b : Z) : bool := negb (Z.land b 0xC0 =? 0x80).

(** Index of the first byte of [w] that can start a rune. *)
Fixpoint findStart (w : bytes) : option nat :=
  match w with
  | [] => None
  | b :: t => if RuneStart (byteZ b) then Some 0%nat
              else S <$> findStart t
  end.

(** [utf8.DecodeLastRuneInString]: the rune at the end of [s].  The code
    steps back from the last byte over at most [UTFMax - 1] bytes to a
    byte that can start a rune, decodes forward from there, and accepts
    the result only if it ends exactly at the end of [s]. *)
Definition DecodeLastRune (s : bytes) : Z * nat :=
  match rev s with
  | [] => (RuneError, 0%nat)
  | b :: before =>
    if byteZ b <? RuneSelf then (byteZ b, 1%nat)
    else
      let chunk :=
        match findStart (take (UTFMax - 1) before) with
        | Some j => rev (b :: take (S j) before)
        | None => rev (b :: take UTFMax before)
        end in
      let '(r, size) := DecodeRune chunk in
      if (size =? length chunk)%nat then (r, size) else (RuneError, 1%nat)
  end.
End utf8.

(** ** package unicode *)
Module unicode.
Local Open Scope Z_scope.

Definition MaxLatin1 : Z := 0xFF.

(** The [White_Space] range table outside Latin-1. *)
Definition White_Space (r : Z) : bool :=
  (r =? 0x1680) || ((0x2000 <=? r) && (r <=? 0x200A))
  || ((0x2028 <=? r) && (r <=? 0x2029)) || (r =? 0x202F)
  || (r =? 0x205F) || (r =? 0x3000).

(** [unicode.IsSpace]. *)
Definition IsSpace (r : Z) : bool :=
  if r <=? MaxLatin1 then
    (r =? 9) || (r =? 10) || (r =? 11) || (r =? 12) || (r =? 13)
    || (r =? 32) || (r =? 0x85) || (r =? 0xA0)
  else White_Space r.
End unicode.

(** ** Error values

    Go's [error] results.  [None] of type [option error] is [nil]. *)
Inductive NumErr := ErrSyntax | ErrRange.

Inductive error :=
| io_EOF
| strconv_NumError (Func : string) (Num : bytes) (Err : NumErr)
| net_AddrError (Err : string) (Addr : bytes)
| fmt_Errorf (text : string)
(** an error value made by a collaborator outside this file (the body's
    transport, the TLS loader); only its text is known *)
| foreign_Error (text : string).

(** A run-time panic: the two kinds this file can raise. *)
Inductive panic :=
| IndexOutOfRange (index len : nat)
| NilDereference.

(** ** package strings *)
Module strings.

(** [strings.TrimLeftFunc s unicode.IsSpace]: drop leading runes while
    they are white space. *)
Fixpoint trimLeft (fuel : nat) (s : bytes) : bytes :=
  match fuel with
  | O => s
  | S fuel' =>
    match s with
    | [] => []
    | _ :: _ =>
      let '(r, size) := utf8.DecodeRune s in
      if unicode.IsSpace r then trimLeft fuel' (drop size s) else s
    end
  end.
Definition TrimLeftSpace (s : bytes) : bytes := trimLeft (length s) s.

(** [strings.TrimRightFunc s unicode.IsSpace]: drop trailing runes, found
    with [DecodeLastRune], while they are white space. *)
Fixpoint trimRight (fuel : nat) (s : bytes) : bytes :=
  match fuel with
  | O => s
  | S fuel' =>
    match s with
    | [] => []
    | _ :: _ =>
      let '(r, size) := utf8.DecodeLastRune s in
      if unicode.IsSpace r then trimRight fuel' (take (length s - size) s)
      else s
    end
  end.
Definition TrimRightSpace (s : bytes) : bytes := trimRight (length s) s.

(** [strings.TrimSpace]: all leading and trailing Unicode white space
    removed. *)
Definition TrimSpace (s : bytes) : bytes := TrimRightSpace (TrimLeftSpace s).

Definition emit (cur : bytes) : list bytes :=
  match cur with [] => [] | _ => [cur] end.

(** The loop of [strings.FieldsFunc s unicode.IsSpace] ([for end, rune :=
    range s]).  [cur] is the field being collected (empty when none is
    open); [skip] counts the bytes of the current rune still to pass and
    [keep] says whether they belong to the field. *)
Fixpoint fieldsLoop (skip : nat) (keep : bool) (cur : bytes) (s : bytes)
  : list bytes :=
  match s with
  | [] => emit cur
  | b :: t =>
    match skip with
    | S k => fieldsLoop k keep (if keep then cur ++ [b] else cur) t
    | O =>
      let '(r, w) := utf8.DecodeRune s in
      if unicode.IsSpace r then emit cur ++ fieldsLoop (w - 1) false [] t
      else fieldsLoop (w - 1) true (cur ++ [b]) t
    end
  end.

(** [strings.Fields]: the maximal runs of non-white-space runes. *)
Definition Fields (s : bytes) : list bytes := fieldsLoop 0 false [] s.

(** [strings.Split s sep] for a one-byte separator: the pieces between
    the occurrences of [sep]; never empty. *)
Fixpoint Split (s : string) (sep : ascii) : list string :=
  match s with
  | EmptyString => [EmptyString]
  | String c t =>
    if Ascii.eqb c sep then EmptyString :: Split t sep
    else match Split t sep with
         | f :: fs => String c f :: fs
         | [] => [String c EmptyString]
         end
  end.

(** [IndexByte]: position of the first [c] in [s]; [None] is Go's -1. *)
Fixpoint IndexByte (s : bytes) (c : ascii) : option nat :=
  match s with
  | [] => None
  | b :: t => if Ascii.eqb b c then Some 0 else S <$> IndexByte t c
  end.

(** [LastIndexByte]: position of the last [c] in [s]. *)
Fixpoint LastIndexByte (s : bytes) (c : ascii) : option nat :=
  match s with
  | [] => None
  | b :: t =>
    match LastIndexByte t c with
    | Some i => Some (S i)
    | None => if Ascii.eqb b c then Some 0 else None
    end
  end.
End strings.

(** ** package strconv *)
Module strconv.
Local Open Scope Z_scope.

Definition maxUint64 : Z := 2 ^ 64 - 1.
Definition wrap64 (x : Z) : Z := x mod 2 ^ 64.

Definition syntaxError (fn : string) (str : bytes) : error :=
  strconv_NumError fn str ErrSyntax.
Definition rangeError (fn : string) (str : bytes) : error :=
  strconv_NumError fn str ErrRange.

Definition lower (c : Z) : Z := Z.lor c 0x20.

(** The digit value of a byte in [ParseUint]'s [switch]: decimal digits,
    then letters from 10 up; [None] is the [default] branch. *)
Definition digitVal (c : Z) : option Z :=
  if (48 <=? c) && (c <=? 57) then Some (c - 48)
  else if (97 <=? lower c) && (lower c <=? 122) then Some (lower c - 97 + 10)
  else None.

(** The digit loop of [ParseUint s0 base 64], with [n] the value so far.
    [cutoff] is the smallest number whose product with [base] exceeds
    [maxUint64]. *)
Fixpoint parseLoop (base : Z) (s0 s : bytes) (n : Z) : Z * option error :=
  match s with
  | [] => (n, None)
  | c :: t =>
    match digitVal (byteZ c) with
    | None => (0, Some (syntaxError "ParseUint" s0))
    | Some d =>
      if base <=? d then (0, Some (syntaxError "ParseUint" s0))
      else if maxUint64 / base + 1 <=? n then
        (maxUint64, Some (rangeError "ParseUint" s0))
      else
        let n' := wrap64 (n * base) in
        let n1 := wrap64 (n' + d) in
        if (n1 <? n') || (maxUint64 <? n1) then
          (maxUint64, Some (rangeError "ParseUint" s0))
        else parseLoop base s0 t n1
    end
  end.

(** [strconv.ParseUint s 10 64].  The base is fixed, so no prefix and no
    underscore is accepted. *)
Definition ParseUint10 (s : bytes) : Z * option error :=
  match s with
  | [] => (0, Some (syntaxError "ParseUint" s))
  | _ => parseLoop 10 s s 0
  end.
End strconv.

(** ** packages io and bufio *)
Module io.
(** A response body as the reader sees it: the bytes it delivers and the
    error it ends with ([io_EOF] when the body was received whole, a
    transport error otherwise). *)
Record ReadCloser := { content : bytes; failure : error }.
End io.

Module bufio.

(** A buffered reader: the bytes not yet read and the error the
    underlying stream ends with. *)
Record Reader := { pending : bytes; ending : error }.

Definition NewReader (rd : io.ReadCloser) : Reader :=
  {| pending := io.content rd; ending := io.failure rd |}.

(** Split [s] after the first [delim]. *)
Fixpoint cut (delim : ascii) (s : bytes) : option (bytes * bytes) :=
  match s with
  | [] => None
  | c :: t =>
    if Ascii.eqb c delim then Some ([c], t)
    else '(l, rest) ← cut delim t; Some (c :: l, rest)
  end.

(** [Reader.ReadString delim]: the bytes up to and including the first
    [delim]; when the stream ends first, what was read and the stream's
    error.  The result is [(line, r', err)] with [r'] the reader
    afterwards. *)
Definition ReadString (r : Reader) (delim : ascii)
  : bytes * Reader * option error :=
  match cut delim (pending r) with
  | Some (line, rest) =>
    (line, {| pending := rest; ending := ending r |}, None)
  | None =>
    (pending r, {| pending := []; ending := ending r |}, Some (ending r))
  end.
End bufio.

(** ** package net *)
Module net.

Definition addrErr (addr : bytes) (why : string) : bytes * bytes * option error :=
  ([], [], Some (net_AddrError why addr)).

(** [s[i] == c], for an index in range. *)
Definition byteIs (s : bytes) (i : nat) (c : ascii) : bool :=
  match s !! i with
  | Some b => Ascii.eqb b c
  | None => false
  end.

Definition missingPort : string := "missing port in address".
Definition tooManyColons : string := "too many colons in address".

(** [net.SplitHostPort]: splits ["host:port"], ["[host]:port"] at the
    last colon. *)
Definition SplitHostPort (hostport : bytes) : bytes * bytes * option error :=
  match strings.LastIndexByte hostport ":" with
  | None => addrErr hostport missingPort
  | Some i =>
    let finish (host : bytes) (j k : nat) :=
      if strings.IndexByte (drop j hostport) "[" is Some _ then
        addrErr hostport "unexpected '[' in address"
      else if strings.IndexByte (drop k hostport) "]" is Some _ then
        addrErr hostport "unexpected ']' in address"
      else (host, drop (S i) hostport, None) in
    if byteIs hostport 0 "[" then
      match strings.IndexByte hostport "]" with
      | None => addrErr hostport "missing ']' in address"
      | Some e =>
        if (e + 1 =? length hostport)%nat then addrErr hostport missingPort
        else if (e + 1 =? i)%nat then
          finish (drop 1 (take e hostport)) 1%nat (e + 1)%nat
        else if byteIs hostport (e + 1) ":" then
          addrErr hostport tooManyColons
        else addrErr hostport missingPort
      end
    else
      let host := take i hostport in
      if strings.IndexByte host ":" is Some _ then
        addrErr hostport tooManyColons
      else finish host 0%nat 0%nat
  end.
End net.

(** ** Effects

    What a call does besides returning: it calls the accumulator, starts a
    goroutine, issues a request.  The code never reads the accumulator
    back, so a call is described by the events it emits, in order. *)
Record URL := { Scheme : string; Host : string; Path : string }.

Inductive Event :=
(** [acc.AddFields(measurement, fields, tags)] *)
| AddFields (measurement : string) (fields : gmap string Z)
            (tags : gmap string string)
(** [acc.AddError(err)]; the accumulator ignores a nil [err] *)
| AddError (err : option error)
(** a [go] statement, with the goroutine's argument ([None] is a nil
    pointer) *)
| Spawn (addr : option URL)
(** [client.Get(url)] *)
| Request (url : string).

(** How a call ends: it returns (for a function whose result is [error],
    [Val tt] is [return nil]), it returns a non-nil error, or it panics. *)
Inductive Res (A : Type) :=
| Val (a : A)
| Err (e : error)
| Panic (p : panic).
Arguments Val {A} a.
Arguments Err {A} e.
Arguments Panic {A} p.

(** A call: how it ends and the events it emitted until then. *)
Definition Op (A : Type) : Type := Res A * list Event.

Definition ret {A} (a : A) : Op A := (Val a, []).

Definition bind {A B} (m : Op A) (k : A → Op B) : Op B :=
  match m with
  | (Val a, evs) => let '(r, evs') := k a in (r, evs ++ evs')
  | (Err e, evs) => (Err e, evs)
  | (Panic p, evs) => (Panic p, evs)
  end.

Notation "'let*' x ':=' m 'in' k" := (bind m (fun x => k))
  (at level 10, x pattern, m at level 100, k at level 200, only parsing).

(** [return err] *)
Definition fail {A} (e : error) : Op A := (Err e, []).

Definition raise {A} (p : panic) : Op A := (Panic p, []).

Definition log (e : Event) : Op unit := (Val tt, [e]).

(** The idiom [x, err := f(); if err != nil { return err }]. *)
Definition try {A} (x : A * option error) : Op A :=
  match x with
  | (_, Some e) => fail e
  | (a, None) => ret a
  end.

(** [l[i]], which panics out of range. *)
Definition index {A} (l : list A) (i : nat) : Op A :=
  match l !! i with
  | Some x => ret x
  | None => raise (IndexOutOfRange i (length l))
  end.

(** [*p] for a pointer that may be nil. *)
Definition deref {A} (p : option A) : Op A :=
  match p with
  | Some x => ret x
  | None => raise NilDereference
  end.

(** The [error] result of a call, as a value. *)
Definition result (m : Op unit) : Op (option error) :=
  match m with
  | (Val _, evs) => (Val None, evs)
  | (Err e, evs) => (Val (Some e), evs)
  | (Panic p, evs) => (Panic p, evs)
  end.

(** A call that emits nothing. *)
Definition pure {A} (m : Op A) : Prop := m.2 = [].

(** The names of the seven fields. *)
Definition field_names : gset string :=
  {[ "active"; "accepts"; "handled"; "requests";
     "reading"; "writing"; "waiting" ]}.

(** A call that emits one record with the seven fields when it succeeds
    and nothing when it does not. *)
Definition atomic (tags : gmap string string) (m : Op unit) : Prop :=
  match m with
  | (Val _, evs) =>
    ∃ fields : gmap string Z,
      evs = [AddFields "nginx" fields tags] ∧ dom fields = field_names
  | (Err _, evs) | (Panic _, evs) => evs = []
  end.

(** The failures [gatherStubStatusUrl] is built to have, [e0] being the
    error its stream ends with. *)
Definition fails_as (e0 : error) {A} (m : Op A) : Prop :=
  match m with
  | (Val _, _) => True
  | (Err e, _) =>
    e = e0 ∨ ∃ tok kind, e = strconv_NumError "ParseUint" tok kind
  | (Panic p, _) => ∃ i len, p = IndexOutOfRange i len ∧ len ≤ i ≤ 5
  end.

(** ** The plugin *)

(** [time.Duration] is a count of nanoseconds. *)
Definition Second : Z := 1000000000.

Definition StatusOK : Z := 200.

(** [gatherStubStatusUrl]: parse the stub-status page read from [r] and
    record its seven counters. *)
Definition gatherStubStatusUrl (r : bufio.Reader) (tags : gmap string string)
  : Op unit :=
  (* Active connections *)
  let* (_, r) := try (bufio.ReadString r ":") in
  let* (line, r) := try (bufio.ReadString r LF) in
  let* active := try (strconv.ParseUint10 (strings.TrimSpace line)) in
  (* Server accepts handled requests *)
  let* (_, r) := try (bufio.ReadString r LF) in
  let* (line, r) := try (bufio.ReadString r LF) in
  let data := strings.Fields line in
  let* d0 := index data 0 in
  let* accepts := try (strconv.ParseUint10 d0) in
  let* d1 := index data 1 in
  let* handled := try (strconv.ParseUint10 d1) in
  let* d2 := index data 2 in
  let* requests := try (strconv.ParseUint10 d2) in
  (* Reading/Writing/Waiting *)
  let* (line, r) := try (bufio.ReadString r LF) in
  let data := strings.Fields line in
  let* d1 := index data 1 in
  let* reading := try (strconv.ParseUint10 d1) in
  let* d3 := index data 3 in
  let* writing := try (strconv.ParseUint10 d3) in
  let* d5 := index data 5 in
  let* waiting := try (strconv.ParseUint10 d5) in
  let fields : gmap string Z :=
    {[ "active" := active;
       "accepts" := accepts;
       "handled" := handled;
       "requests" := requests;
       "reading" := reading;
       "writing" := writing;
       "waiting" := waiting ]} in
  log (AddFields "nginx" fields tags).

(** [getTags]: the tags of the nginx plugin. *)
Definition getTags (addr : URL) : gmap string string :=
  let h := Host addr in
  let '(host, port, err) := net.SplitHostPort (B h) in
  let '(host, port) :=
    match err with
    | Some _ =>
      (Host addr,
       if String.eqb (Scheme addr) "http" then "80"
       else if String.eqb (Scheme addr) "https" then "443"
       else "")
    | None => (S_ host, S_ port)
    end in
  {[ "server" := host; "port" := port ]}.

(** [http.Response], as far as the plugin reads it. *)
Record Response := {
  StatusCode : Z;
  Status : string;
  (** [Header.Get("Content-Type")], empty when the header is absent *)
  ContentType : string;
  Body : io.ReadCloser
}.

(** [http.Client], as far as the plugin sets it: the TLS configuration of
    its transport and its timeout.  [T] is the type of [*tls.Config]. *)
Record Client (T : Type) := { TLSClientConfig : T; Timeout : Z }.
Arguments TLSClientConfig {T} c.
Arguments Timeout {T} c.

(** The collaborators outside this file. *)
Class Collaborators := {
  (** [*tls.Config] *)
  TLSConfig : Type;
  (** [internal.GetTLSConfig(SSLCert, SSLKey, SSLCA, InsecureSkipVerify)] *)
  GetTLSConfig : string → string → string → bool → TLSConfig + error;
  (** [url.Parse]: the URL, or the text of the error (the URL is then nil) *)
  url_Parse : string → URL + string;
  (** [URL.String] on a URL that is not nil *)
  URL_String : URL → string;
  (** [Client.Get] on a client that is not nil: the response, or the text
      of the error *)
  http_Get : Client TLSConfig → string → Response + string;
  (** [gatherStatusUrl], the decoder of the JSON status page, which is
      defined outside this file *)
  gatherStatusUrl : bufio.Reader → gmap string string → Op unit
}.

Section Plugin.
Context `{Collaborators}.

Record Nginx := {
  Urls : list string;
  SSLCA : string;
  SSLCert : string;
  SSLKey : string;
  InsecureSkipVerify : bool;
  client : option (Client TLSConfig);
  ResponseTimeout : Z
}.

Definition set_client (c : option (Client TLSConfig)) (n : Nginx) : Nginx :=
  {| Urls := Urls n; SSLCA := SSLCA n; SSLCert := SSLCert n;
     SSLKey := SSLKey n; InsecureSkipVerify := InsecureSkipVerify n;
     client := c; ResponseTimeout := ResponseTimeout n |}.

Definition set_ResponseTimeout (d : Z) (n : Nginx) : Nginx :=
  {| Urls := Urls n; SSLCA := SSLCA n; SSLCert := SSLCert n;
     SSLKey := SSLKey n; InsecureSkipVerify := InsecureSkipVerify n;
     client := client n; ResponseTimeout := d |}.

(** [createHttpClient]: the result is [(client, err, n')], [n'] being the
    receiver afterwards. *)
Definition createHttpClient (n : Nginx)
  : option (Client TLSConfig) * option error * Nginx :=
  match GetTLSConfig (SSLCert n) (SSLKey n) (SSLCA n) (InsecureSkipVerify n)
  with
  | inr err => (None, Some err, n)
  | inl tlsCfg =>
    let n := if (ResponseTimeout n <? Second)%Z
             then set_ResponseTimeout (Second * 5)%Z n else n in
    (Some {| TLSClientConfig := tlsCfg; Timeout := ResponseTimeout n |},
     None, n)
  end.

(** [gatherUrl].  [addr] is a pointer and may be nil. *)
Definition gatherUrl (n : Nginx) (addr : option URL) : Op unit :=
  let* a := deref addr in
  let* c := deref (client n) in
  let* _ := log (Request (URL_String a)) in
  match http_Get c (URL_String a) with
  | inr err =>
    fail (fmt_Errorf ("error making HTTP request to " +:+ URL_String a
                      +:+ ": " +:+ err))
  | inl resp =>
    if negb (StatusCode resp =? StatusOK)%Z then
      fail (fmt_Errorf (URL_String a +:+ " returned HTTP status "
                        +:+ Status resp))
    else
      let* contentType := index (strings.Split (ContentType resp) ";") 0 in
      if String.eqb contentType "text/plain" then
        gatherStubStatusUrl (bufio.NewReader (Body resp)) (getTags a)
      else if String.eqb contentType "application/json" then
        gatherStatusUrl (bufio.NewReader (Body resp)) (getTags a)
      else
        fail (fmt_Errorf (URL_String a +:+ " returned unexpected content type "
                          +:+ contentType))
  end.

(** The goroutine started for one address:
    [acc.AddError(n.gatherUrl(addr, acc))]. *)
Definition worker (n : Nginx) (addr : option URL) : Op unit :=
  let* err := result (gatherUrl n addr) in
  log (AddError err).

(** The loop [for _, u := range n.Urls] of [Gather], followed by
    [wg.Wait()] and [return nil].  The goroutines share nothing but the
    accumulator, so the order in which they run only permutes the events;
    here each one runs where it is started.  A panic in a goroutine ends
    the program. *)
Fixpoint rangeUrls (n : Nginx) (urls : list string) : Op unit :=
  match urls with
  | [] => ret tt
  | u :: rest =>
    let* addr :=
      match url_Parse u with
      | inr err =>
        let* _ := log (AddError (Some (fmt_Errorf
                    ("Unable to parse address '" +:+ u +:+ "': " +:+ err)))) in
        ret None
      | inl addr => ret (Some addr)
      end in
    let* _ := log (Spawn addr) in
    let* _ := worker n addr in
    rangeUrls n rest
  end.

(** [Gather]: how the call ends, the receiver afterwards and the events
    emitted. *)
Definition Gather (n : Nginx) : Res unit * Nginx * list Event :=
  let '(err, n) :=
    match client n with
    | None =>
      let '(c, err, n) := createHttpClient n in
      match err with
      | Some _ => (err, n)
      | None => (None, set_client c n)
      end
    | Some _ => (None, n)
    end in
  match err with
  | Some e => (Err e, n, [])
  | None => let '(r, evs) := rangeUrls n (Urls n) in (r, n, evs)
  end.

(** [Description]. *)
Definition Description : string :=
  "Read Nginx's basic status information (ngx_http_stub_status_module) or Nginx's Plus full status information (ngx_http_status_module)".

(** The collector that the factory registered by [init] returns,
    [&Nginx{}]: every field has its zero value. *)
Definition newNginx : Nginx :=
  {| Urls := []; SSLCA := ""; SSLCert := ""; SSLKey := "";
     InsecureSkipVerify := false; client := None; ResponseTimeout := 0 |}.

(** The timeout [createHttpClient] settles on for a requested one. *)
Definition effective (requested : Z) : Z :=
  if (requested <? Second)%Z then (Second * 5)%Z else requested.

(** *** What a collection cycle is expected to leave behind *)




(** What happens to a collector between and during its cycles: a cycle
    runs, or its configuration is overwritten from outside.  [client] is
    not exported, so a reconfiguration cannot touch it. *)
Inductive Step :=
| Cycle
| Reconfigure (urls : list string) (ca cert key : string)
              (insecure : bool) (timeout : Z).

Definition step (n : Nginx) (s : Step) : Nginx :=
  match s with
  | Cycle => (Gather n).1.2
  | Reconfigure urls ca cert key insecure timeout =>
    {| Urls := urls; SSLCA := ca; SSLCert := cert; SSLKey := key;
       InsecureSkipVerify := insecure; client := client n;
       ResponseTimeout := timeout |}
  end.

End Plugin.

(** The part of [s] before the first [sep]; all of [s] when it has none. *)
Fixpoint before (sep : ascii) (s : string) : string :=
  match s with
  | EmptyString => EmptyString
  | String c t => if Ascii.eqb c sep then EmptyString
                  else String c (before sep t)
  end.


(** ** The layout of the stub-status page

    The page that [ngx_http_stub_status_module] writes:
<<
    Active connections: 3
    server accepts handled requests
     4 4 5
    Reading: 1 Writing: 2 Waiting: 0
>>
    described independently of the parser: which bytes are blanks, what a
    number looks like and how the lines are put together. *)
Module Layout.

Definition isDigit (c : ascii) : bool :=
  (48 <=? byteZ c)%Z && (byteZ c <=? 57)%Z.
Definition isBlank (c : ascii) : bool :=
  Ascii.eqb c " " || Ascii.eqb c TAB.
(** A visible ASCII character. *)
Definition isGraphic (c : ascii) : bool :=
  (33 <=? byteZ c)%Z && (byteZ c <=? 126)%Z.

(** The six ASCII white-space characters. *)
Definition asciiSpace (c : ascii) : bool :=
  (byteZ c =? 9)%Z || (byteZ c =? 10)%Z || (byteZ c =? 11)%Z || (byteZ c =? 12)%Z
  || (byteZ c =? 13)%Z || (byteZ c =? 32)%Z.

(** An ASCII character that is not white space. *)
Definition asciiText (c : ascii) : bool :=
  (byteZ c <? 128)%Z && negb (asciiSpace c).

(** [s] has no byte [d]. *)
Definition free (d : ascii) (s : bytes) : bool :=
  forallb (fun c => negb (Ascii.eqb c d)) s.

(** A possibly empty run of blanks. *)
Definition blanks (s : bytes) : Prop := forallb isBlank s = true.
(** What separates two tokens. *)
Definition gap (s : bytes) : Prop := s ≠ [] ∧ blanks s.
(** A label such as [Reading:]. *)
Definition word (s : bytes) : Prop := s ≠ [] ∧ forallb isGraphic s = true.

(** The number a string of decimal digits denotes, read after the
    digits of [n]. *)
Definition decimalFrom (n : Z) (s : bytes) : Z :=
  fold_left (fun n c => n * 10 + (byteZ c - 48))%Z s n.

(** The number a string of decimal digits denotes. *)
Definition decimal (s : bytes) : Z := decimalFrom 0 s.

(** [s] is the decimal notation of [v], an unsigned 64-bit value;
    leading zeros are allowed. *)
Definition numeral (v : Z) (s : bytes) : Prop :=
  s ≠ [] ∧ forallb isDigit s = true ∧ decimal s = v ∧ (v < 2 ^ 64)%Z.

(** The label, a colon and the number of active connections. *)
Inductive line_active (active : Z) : bytes → Prop :=
| mk_active label p1 n p2 :
    free ":" label = true → blanks p1 → numeral active n → blanks p2 →
    line_active active (label ++ [":"%char] ++ (p1 ++ n ++ p2) ++ [LF]).

(** The heading [server accepts handled requests]; its text is not
    looked at. *)
Inductive line_heading : bytes → Prop :=
| mk_heading h : free LF h = true → line_heading (h ++ [LF]).

(** Three numbers. *)
Inductive line_counters (accepts handled requests : Z) : bytes → Prop :=
| mk_counters p0 n1 g1 n2 g2 n3 p3 :
    blanks p0 → numeral accepts n1 → gap g1 → numeral handled n2 →
    gap g2 → numeral requests n3 → blanks p3 →
    line_counters accepts handled requests
      ((p0 ++ n1 ++ g1 ++ n2 ++ g2 ++ n3 ++ p3) ++ [LF]).

(** Three labelled numbers, without the newline that ends the line. *)
Inductive states (reading writing waiting : Z) : bytes → Prop :=
| mk_states p0 l1 g1 n1 g2 l2 g3 n2 g4 l3 g5 n3 p6 :
    blanks p0 → word l1 → gap g1 → numeral reading n1 → gap g2 →
    word l2 → gap g3 → numeral writing n2 → gap g4 →
    word l3 → gap g5 → numeral waiting n3 → blanks p6 →
    states reading writing waiting
      (p0 ++ l1 ++ g1 ++ n1 ++ g2 ++ l2 ++ g3 ++ n2 ++ g4 ++ l3 ++ g5
          ++ n3 ++ p6).

(** The seven counters of a page. *)
Record Counters := {
  active : Z; accepts : Z; handled : Z; requests : Z;
  reading : Z; writing : Z; waiting : Z
}.

(** The first three lines of a page showing [c]. *)
Inductive page_head (c : Counters) : bytes → Prop :=
| mk_head b1 b2 b3 :
    line_active (active c) b1 → line_heading b2 →
    line_counters (accepts c) (handled c) (requests c) b3 →
    page_head c (b1 ++ b2 ++ b3).

(** A well-formed page showing [c]: the three lines of the grammar after
    the heading, each ended by a newline.  What follows the last line is
    not constrained. *)
Inductive page (c : Counters) : bytes → Prop :=
| mk_page hd b4 rest :
    page_head c hd → states (reading c) (writing c) (waiting c) b4 →
    page c (hd ++ b4 ++ [LF] ++ rest).

(** What every body that parses looks like: a part up to the first colon and four
    lines, each ended by a newline. *)
Definition four_lines (body : bytes) : Prop :=
  ∃ label l1 l2 l3 l4 rest,
    body = (label ++ [":"%char]) ++ (l1 ++ [LF]) ++ (l2 ++ [LF])
             ++ (l3 ++ [LF]) ++ (l4 ++ [LF]) ++ rest
    ∧ free ":" label = true ∧ free LF l1 = true ∧ free LF l2 = true
    ∧ free LF l3 = true ∧ free LF l4 = true.

(** The digits a token starts with. *)
Fixpoint digitPrefix (s : bytes) : bytes :=
  match s with
  | c :: t => if isDigit c then c :: digitPrefix t else []
  | [] => []
  end.

(** How a token fares as an unsigned 64-bit decimal number: [None] when it
    is one, [ErrRange] when its leading digits already denote [2 ^ 64] or
    more, [ErrSyntax] when it is empty or a character that is no digit
    comes first. *)
Definition verdict (tok : bytes) : option NumErr :=
  match tok with
  | [] => Some ErrSyntax
  | _ :: _ =>
    if (2 ^ 64 <=? decimal (digitPrefix tok))%Z then Some ErrRange
    else if (length (digitPrefix tok) =? length tok)%nat then None
    else Some ErrSyntax
  end.

(** The bodies the parser takes, by what it looks at: the text up to the
    first colon; the rest of that line, which trimmed is the first number;
    a line that is skipped; a line whose first three tokens are numbers;
    a line whose second, fourth and sixth tokens are numbers.  Further
    tokens, the tokens in between and what follows the last line are
    free. *)
Inductive accepted (c : Counters) : bytes → Prop :=
| mk_accepted label l1 l2 l3 l4 rest t0 t1 t2 x3 w1 t4 w2 t5 w3 t6 x4 :
    free ":" label = true → free LF l1 = true → free LF l2 = true →
    free LF l3 = true → free LF l4 = true →
    numeral (active c) (strings.TrimSpace (l1 ++ [LF])) →
    strings.Fields (l3 ++ [LF]) = t0 :: t1 :: t2 :: x3 →
    numeral (accepts c) t0 → numeral (handled c) t1 →
    numeral (requests c) t2 →
    strings.Fields (l4 ++ [LF]) = w1 :: t4 :: w2 :: t5 :: w3 :: t6 :: x4 →
    numeral (reading c) t4 → numeral (writing c) t5 →
    numeral (waiting c) t6 →
    accepted c (label ++ ":"%char :: l1 ++ LF :: l2 ++ LF :: l3 ++ LF
                  :: l4 ++ LF :: rest).

(** The field set of a page showing [c]. *)
Definition fields (c : Counters) : gmap string Z :=
  {[ "active" := active c;
     "accepts" := accepts c;
     "handled" := handled c;
     "requests" := requests c;
     "reading" := reading c;
     "writing" := writing c;
     "waiting" := waiting c ]}.

End Layout.

(** ** The authority of a URL

    The two ways an authority names its port, described independently of
    [net.SplitHostPort]: [host:port], and [[host]:port] for a host that is
    an IPv6 literal. *)
Module Authority.
Import Layout.

(** Neither a colon nor a bracket. *)
Definition plain (s : bytes) : bool :=
  free ":" s && free "[" s && free "]" s.

(** [explicit_port a host port]: the authority [a] names [host] and
    [port]. *)
Inductive explicit_port : bytes → bytes → bytes → Prop :=
| port_after_name host port :
    plain host = true → plain port = true →
    explicit_port (host ++ ":"%char :: port) host port
| port_after_literal host port :
    free "[" host = true → free "]" host = true → plain port = true →
    explicit_port ("["%char :: host ++ "]"%char :: ":"%char :: port)
                  host port.

(** The default port of a scheme. *)
Definition default_port (scheme : string) : string :=
  if String.eqb scheme "http" then "80"
  else if String.eqb scheme "https" then "443"
  else "".

End Authority.

(** ** A small test bench

    Stand-ins for the collaborators, used to run the plugin on concrete
    inputs: a URL parser for [scheme://host/path] that rejects an address
    without a scheme as [url.Parse] does, a TLS loader that fails on one
    path, and a server with a handful of pages. *)
Module Sample.

Definition lines (ls : list string) : bytes :=
  concat (map (fun l => B l ++ [LF]) ls).

(** The page of the stub-status module. *)
Definition page : bytes :=
  lines ["Active connections: 3";
         "server accepts handled requests";
         " 4 4 5";
         "Reading: 1 Writing: 2 Waiting: 0"].

(** The same page without the newline that ends its last line. *)
Definition page_unterminated : bytes :=
  lines ["Active connections: 3";
         "server accepts handled requests";
         " 4 4 5"]
  ++ B "Reading: 1 Writing: 2 Waiting: 0".

(** A page whose counter line has two numbers only. *)
Definition page_short : bytes :=
  lines ["Active connections: 3";
         "server accepts handled requests";
         " 4 4";
         "Reading: 1 Writing: 2 Waiting: 0"].

Definition parse (u : string) : URL + string :=
  match strings.IndexByte (B u) ":" with
  | Some O => inr "missing protocol scheme"
  | Some i =>
    let rest := drop (S i) (B u) in
    match rest with
    | "/"%char :: "/"%char :: auth =>
      let n := default (length auth) (strings.IndexByte auth "/") in
      inl {| Scheme := S_ (take i (B u));
             Host := S_ (take n auth);
             Path := S_ (drop n auth) |}
    | _ => inl {| Scheme := S_ (take i (B u)); Host := ""; Path := S_ rest |}
    end
  | None => inl {| Scheme := ""; Host := ""; Path := u |}
  end.

Definition render (a : URL) : string :=
  Scheme a +:+ "://" +:+ Host a +:+ Path a.

Definition respond (code : Z) (status ctype : string) (body : bytes)
  : Response + string :=
  inl {| StatusCode := code; Status := status; ContentType := ctype;
         Body := {| io.content := body; io.failure := io_EOF |} |}.

Definition serve (url : string) : Response + string :=
  if String.eqb url "http://localhost/status" then
    respond 200 "200 OK" "text/plain" page
  else if String.eqb url "http://a.example/error" then
    respond 500 "500 Internal Server Error" "text/plain" []
  else if String.eqb url "http://b.example/html" then
    respond 200 "200 OK" "text/html; charset=utf-8" (B "<html></html>")
  else if String.eqb url "http://c.example/short" then
    respond 200 "200 OK" "text/plain" page_short
  else if String.eqb url "http://d.example/partial" then
    respond 206 "206 Partial Content" "text/plain" page
  else inr "connection refused".

#[local] Instance bench : Collaborators := {|
  TLSConfig := unit;
  GetTLSConfig := fun cert _ _ _ =>
    if String.eqb cert "/missing.pem"
    then inr (foreign_Error "open /missing.pem: no such file or directory")
    else inl tt;
  url_Parse := parse;
  URL_String := render;
  http_Get := fun _ url => serve url;
  gatherStatusUrl := fun _ _ => ret tt
|}.

(** A collector that has not run yet. *)
Definition fresh (urls : list string) (timeout : Z) : Nginx :=
  {| Urls := urls; SSLCA := ""; SSLCert := ""; SSLKey := "";
     InsecureSkipVerify := false; client := None;
     ResponseTimeout := timeout |}.

(** The counters of [page]. *)
Definition shown : Layout.Counters :=
  {| Layout.active := 3; Layout.accepts := 4; Layout.handled := 4;
     Layout.requests := 5; Layout.reading := 1; Layout.writing := 2;
     Layout.waiting := 0 |}.

(** The client the bench builds. *)
Definition built : Client TLSConfig :=
  {| TLSClientConfig := tt; Timeout := 5 * Second |}.

Definition url (host path : string) : URL :=
  {| Scheme := "http"; Host := host; Path := path |}.

End Sample.

(** [hay] has [needle] in it. *)
Definition contains (needle hay : string) : Prop :=
  ∃ pre post, hay = pre +:+ needle +:+ post.

Definition CR : ascii := ascii_of_nat 13.

(** The same text with CRLF line ends: a carriage return before every
    newline. *)
Definition crlf (s : bytes) : bytes :=
  flat_map (fun c => if Ascii.eqb c LF then [CR; LF] else [c]) s.

(** ** More pages for the test bench *)
Module Lab.

(** A page whose number of active connections does not fit in 64 bits. *)
Definition page_overflow : bytes :=
  Sample.lines ["Active connections: 18446744073709551616";
                "server accepts handled requests";
                " 4 4 5";
                "Reading: 1 Writing: 2 Waiting: 0"].

(** A page whose first line has two numbers. *)
Definition page_two_actives : bytes :=
  Sample.lines ["Active connections: 3 4";
                "server accepts handled requests";
                " 4 4 5";
                "Reading: 1 Writing: 2 Waiting: 0"].


(** The bench's server with one more endpoint, which serves the page
    without its last newline. *)
Definition serve (url : string) : Response + string :=
  if String.eqb url "http://e.example/cut" then
    Sample.respond 200 "200 OK" "text/plain" Sample.page_unterminated
  else Sample.serve url.

#[local] Instance bench : Collaborators := {|
  TLSConfig := unit;
  GetTLSConfig := @GetTLSConfig Sample.bench;
  url_Parse := Sample.parse;
  URL_String := Sample.render;
  http_Get := fun _ url => serve url;
  gatherStatusUrl := fun _ _ => ret tt
|}.

(** A collector that has its client. *)
Definition running : Nginx :=
  set_client (Some {| TLSClientConfig := tt; Timeout := 5 * Second |})
    {| Urls := []; SSLCA := ""; SSLCert := ""; SSLKey := "";
       InsecureSkipVerify := false; client := None;
       ResponseTimeout := 5 * Second |}.

(** A collector whose certificate cannot be loaded. *)
Definition broken : Nginx :=
  {| Urls := ["http://localhost/status"]; SSLCA := "";
     SSLCert := "/missing.pem"; SSLKey := "/missing.key";
     InsecureSkipVerify := false; client := None; ResponseTimeout := 0 |}.

End Lab.

(** * Properties *)

(** ** Characters *)
Section Characters.
Import Layout.
Local Open Scope Z_scope.

Lemma asciiSpace_range c : asciiSpace c = true → 9 <= byteZ c <= 32.
Proof. unfold asciiSpace. rewrite !orb_true_iff, !Z.eqb_eq. lia. Qed.

Lemma decode_ascii c s :
  byteZ c < 128 → utf8.DecodeRune (c :: s) = (byteZ c, 1%nat).
Proof.
  intros Hc. unfold utf8.DecodeRune. cbn [map].
  unfold utf8.RuneSelf. destruct (Z.ltb_spec (byteZ c) 128); [done | lia].
Qed.

Lemma decode_last_ascii c s :
  byteZ c < 128 → utf8.DecodeLastRune (s ++ [c]) = (byteZ c, 1%nat).
Proof.
  intros Hc. unfold utf8.DecodeLastRune. rewrite rev_unit.
  unfold utf8.RuneSelf. destruct (Z.ltb_spec (byteZ c) 128); [done | lia].
Qed.

Lemma IsSpace_ascii c :
  byteZ c < 128 → unicode.IsSpace (byteZ c) = asciiSpace c.
Proof.
  intros Hc. unfold unicode.IsSpace, unicode.MaxLatin1, asciiSpace.
  destruct (Z.leb_spec (byteZ c) 255); [| lia].
  destruct (Z.eqb_spec (byteZ c) 133); [lia |].
  destruct (Z.eqb_spec (byteZ c) 160); [lia |].
  by rewrite !orb_false_r.
Qed.

Lemma asciiSpace_decode c s :
  asciiSpace c = true →
  utf8.DecodeRune (c :: s) = (byteZ c, 1%nat)
  ∧ unicode.IsSpace (byteZ c) = true.
Proof.
  intros Hc. pose proof (asciiSpace_range c Hc).
  split; [apply decode_ascii; lia | rewrite IsSpace_ascii; [done | lia]].
Qed.

Lemma asciiText_decode c s :
  asciiText c = true →
  utf8.DecodeRune (c :: s) = (byteZ c, 1%nat)
  ∧ unicode.IsSpace (byteZ c) = false.
Proof.
  unfold asciiText. rewrite andb_true_iff, negb_true_iff, Z.ltb_lt.
  intros [Hlt Hns].
  split; [by apply decode_ascii | by rewrite IsSpace_ascii].
Qed.

Lemma isBlank_asciiSpace c : isBlank c = true → asciiSpace c = true.
Proof.
  unfold isBlank. rewrite orb_true_iff.
  intros [Hc | Hc]; apply Ascii.eqb_eq in Hc; by subst.
Qed.

Lemma LF_asciiSpace : asciiSpace LF = true.
Proof. reflexivity. Qed.

Lemma isGraphic_asciiText c : isGraphic c = true → asciiText c = true.
Proof.
  unfold isGraphic, asciiText, asciiSpace.
  rewrite !andb_true_iff, negb_true_iff, !orb_false_iff, !Z.leb_le,
    Z.ltb_lt, !Z.eqb_neq.
  lia.
Qed.

Lemma isDigit_isGraphic c : isDigit c = true → isGraphic c = true.
Proof.
  unfold isDigit, isGraphic. rewrite !andb_true_iff, !Z.leb_le. lia.
Qed.

Lemma isBlank_not_LF c : isBlank c = true → negb (Ascii.eqb c LF) = true.
Proof.
  unfold isBlank. rewrite orb_true_iff.
  intros [Hc | Hc]; apply Ascii.eqb_eq in Hc; by subst.
Qed.

Lemma isGraphic_not_LF c : isGraphic c = true → negb (Ascii.eqb c LF) = true.
Proof.
  intros Hc. apply negb_true_iff, Ascii.eqb_neq. intros ->.
  discriminate Hc.
Qed.

End Characters.

(** ** Splitting and trimming ASCII text *)
Section Text.
Import Layout.

Lemma fieldsLoop_keep k k' cur s :
  strings.fieldsLoop 0 k cur s = strings.fieldsLoop 0 k' cur s.
Proof. by destruct s. Qed.

Lemma fieldsLoop_space c k cur s :
  asciiSpace c = true →
  strings.fieldsLoop 0 k cur (c :: s)
  = strings.emit cur ++ strings.fieldsLoop 0 false [] s.
Proof.
  intros Hc. destruct (asciiSpace_decode c s Hc) as [Hd Hs].
  cbn [strings.fieldsLoop]. by rewrite Hd, Hs.
Qed.

Lemma fieldsLoop_text c k cur s :
  asciiText c = true →
  strings.fieldsLoop 0 k cur (c :: s)
  = strings.fieldsLoop 0 true (cur ++ [c]) s.
Proof.
  intros Hc. destruct (asciiText_decode c s Hc) as [Hd Hs].
  cbn [strings.fieldsLoop]. by rewrite Hd, Hs.
Qed.

(** White space before a field is passed over. *)
Lemma fieldsLoop_spaces sp k s :
  forallb asciiSpace sp = true →
  strings.fieldsLoop 0 k [] (sp ++ s) = strings.fieldsLoop 0 false [] s.
Proof.
  induction sp as [| c sp IH] in k |- *; intros Hsp.
  - apply fieldsLoop_keep.
  - cbn in Hsp. apply andb_true_iff in Hsp as [Hc Hsp].
    cbn [app]. rewrite fieldsLoop_space by done. cbn. by apply IH.
Qed.

(** Text is collected into the open field. *)
Lemma fieldsLoop_word w k cur s :
  forallb asciiText w = true →
  strings.fieldsLoop 0 k cur (w ++ s) = strings.fieldsLoop 0 k (cur ++ w) s.
Proof.
  induction w as [| c w IH] in k, cur |- *; intros Hw.
  - by rewrite app_nil_r.
  - cbn in Hw. apply andb_true_iff in Hw as [Hc Hw].
    cbn [app]. rewrite fieldsLoop_text by done.
    rewrite IH by done. rewrite <- app_assoc. apply fieldsLoop_keep.
Qed.

(** A field followed by white space is emitted. *)
Lemma fields_token w sp s :
  w ≠ [] → forallb asciiText w = true →
  sp ≠ [] → forallb asciiSpace sp = true →
  strings.fieldsLoop 0 false [] (w ++ sp ++ s)
  = w :: strings.fieldsLoop 0 false [] s.
Proof.
  intros Hne Hw Hsne Hsp.
  rewrite fieldsLoop_word by done. cbn [app].
  destruct sp as [| c sp]; [done |].
  cbn in Hsp. apply andb_true_iff in Hsp as [Hc Hsp].
  cbn [app]. rewrite fieldsLoop_space by done.
  rewrite fieldsLoop_spaces by done.
  by destruct w.
Qed.

Lemma forallb_impl {A} (f g : A → bool) l :
  (∀ x, f x = true → g x = true) → forallb f l = true → forallb g l = true.
Proof.
  intros Hfg. rewrite !forallb_forall. auto.
Qed.

Lemma blanks_spaces s : blanks s → forallb asciiSpace s = true.
Proof. apply forallb_impl, isBlank_asciiSpace. Qed.

Lemma graphic_text s : forallb isGraphic s = true → forallb asciiText s = true.
Proof. apply forallb_impl, isGraphic_asciiText. Qed.

Lemma digits_text s : forallb isDigit s = true → forallb asciiText s = true.
Proof.
  apply forallb_impl. intros c Hc.
  by apply isGraphic_asciiText, isDigit_isGraphic.
Qed.

Lemma blanks_free_LF s : blanks s → free LF s = true.
Proof. apply forallb_impl, isBlank_not_LF. Qed.

Lemma graphic_free_LF s : forallb isGraphic s = true → free LF s = true.
Proof. apply forallb_impl, isGraphic_not_LF. Qed.

Lemma digits_free_LF s : forallb isDigit s = true → free LF s = true.
Proof.
  apply forallb_impl. intros c Hc.
  by apply isGraphic_not_LF, isDigit_isGraphic.
Qed.

Lemma free_app d s1 s2 :
  free d (s1 ++ s2) = free d s1 && free d s2.
Proof. apply forallb_app. Qed.

(** *** Trimming *)

Lemma TrimLeftSpace_space c s :
  asciiSpace c = true →
  strings.TrimLeftSpace (c :: s) = strings.TrimLeftSpace s.
Proof.
  intros Hc. destruct (asciiSpace_decode c s Hc) as [Hd Hs].
  unfold strings.TrimLeftSpace. cbn [length strings.trimLeft].
  by rewrite Hd, Hs.
Qed.

Lemma TrimLeftSpace_text c s :
  asciiText c = true → strings.TrimLeftSpace (c :: s) = c :: s.
Proof.
  intros Hc. destruct (asciiText_decode c s Hc) as [Hd Hs].
  unfold strings.TrimLeftSpace. cbn [length strings.trimLeft].
  by rewrite Hd, Hs.
Qed.

Lemma TrimLeftSpace_spaces sp c s :
  forallb asciiSpace sp = true → asciiText c = true →
  strings.TrimLeftSpace (sp ++ c :: s) = c :: s.
Proof.
  induction sp as [| b sp IH]; intros Hsp Hc.
  - by apply TrimLeftSpace_text.
  - cbn in Hsp. apply andb_true_iff in Hsp as [Hb Hsp].
    cbn [app]. rewrite TrimLeftSpace_space by done. by apply IH.
Qed.

Lemma TrimRightSpace_unfold s c :
  strings.TrimRightSpace (s ++ [c])
  = let '(r, size) := utf8.DecodeLastRune (s ++ [c]) in
    if unicode.IsSpace r
    then strings.trimRight (length s) (take (S (length s) - size) (s ++ [c]))
    else s ++ [c].
Proof.
  assert (length (s ++ [c]) = S (length s)) as Hl
    by (rewrite length_app; cbn; lia).
  unfold strings.TrimRightSpace. rewrite Hl. cbn [strings.trimRight].
  rewrite Hl. destruct (s ++ [c]) eqn:E; [by destruct s | done].
Qed.

Lemma TrimRightSpace_space s c :
  asciiSpace c = true →
  strings.TrimRightSpace (s ++ [c]) = strings.TrimRightSpace s.
Proof.
  intros Hc. pose proof (asciiSpace_range c Hc).
  rewrite TrimRightSpace_unfold, decode_last_ascii by lia.
  rewrite IsSpace_ascii, Hc by lia.
  replace (S (length s) - 1)%nat with (length s) by lia.
  by rewrite take_app_length.
Qed.

Lemma TrimRightSpace_text s c :
  asciiText c = true → strings.TrimRightSpace (s ++ [c]) = s ++ [c].
Proof.
  intros Hc. pose proof Hc as Hc'. unfold asciiText in Hc'.
  apply andb_true_iff in Hc' as [Hlt Hns].
  apply Z.ltb_lt in Hlt. apply negb_true_iff in Hns.
  rewrite TrimRightSpace_unfold, decode_last_ascii by lia.
  by rewrite IsSpace_ascii, Hns by lia.
Qed.

Lemma TrimRightSpace_spaces s c sp :
  asciiText c = true → forallb asciiSpace sp = true →
  strings.TrimRightSpace (s ++ [c] ++ sp) = s ++ [c].
Proof.
  intros Hc. induction sp as [| b sp IH] using rev_ind; intros Hsp.
  - rewrite app_nil_r. by apply TrimRightSpace_text.
  - rewrite forallb_app in Hsp. cbn in Hsp.
    apply andb_true_iff in Hsp as [Hsp Hb].
    rewrite andb_true_r in Hb.
    rewrite !app_assoc. rewrite TrimRightSpace_space by done.
    rewrite <- app_assoc. by apply IH.
Qed.

(** A token of visible characters between runs of white space is what
    [TrimSpace] leaves. *)
Lemma TrimSpace_token sp1 w sp2 :
  w ≠ [] → forallb asciiText w = true →
  forallb asciiSpace sp1 = true → forallb asciiSpace sp2 = true →
  strings.TrimSpace (sp1 ++ w ++ sp2) = w.
Proof.
  intros Hne Hw H1 H2. unfold strings.TrimSpace.
  destruct w as [| c w]; [done |].
  cbn in Hw. apply andb_true_iff in Hw as [Hc Hw].
  cbn [app]. rewrite TrimLeftSpace_spaces by done.
  destruct (exists_last (l := c :: w)) as (w' & c' & E); [done |].
  change (c :: w ++ sp2) with ((c :: w) ++ sp2).
  rewrite E. rewrite <- app_assoc.
  assert (asciiText c' = true) as Hc'.
  { assert (forallb asciiText (c :: w) = true) as Hall
      by (cbn; by rewrite Hc, Hw).
    rewrite E, forallb_app in Hall. cbn in Hall.
    apply andb_true_iff in Hall as [_ Hall].
    by rewrite andb_true_r in Hall. }
  by apply TrimRightSpace_spaces.
Qed.

End Text.

(** ** Numbers *)
Section Numbers.
Import Layout.
Local Open Scope Z_scope.

Lemma isDigit_range c : isDigit c = true → 48 <= byteZ c <= 57.
Proof. unfold isDigit. rewrite andb_true_iff, !Z.leb_le. lia. Qed.

Lemma digitVal_digit c :
  isDigit c = true → strconv.digitVal (byteZ c) = Some (byteZ c - 48).
Proof.
  intros Hc. apply isDigit_range in Hc. unfold strconv.digitVal.
  destruct (Z.leb_spec 48 (byteZ c)); [| lia].
  destruct (Z.leb_spec (byteZ c) 57); [done | lia].
Qed.

Lemma decimalFrom_ge s n :
  forallb isDigit s = true → 0 <= n → n <= decimalFrom n s.
Proof.
  induction s as [| c s IH] in n |- *; intros Hs Hn; [cbn; lia |].
  cbn in Hs. apply andb_true_iff in Hs as [Hc Hs].
  apply isDigit_range in Hc. cbn.
  etrans; [| apply IH; [done | lia]]. lia.
Qed.

(** On digits whose value fits in 64 bits the loop neither overflows nor
    rejects a character. *)
Lemma parseLoop_digits s0 s n :
  forallb isDigit s = true → 0 <= n → decimalFrom n s < 2 ^ 64 →
  strconv.parseLoop 10 s0 s n = (decimalFrom n s, None).
Proof.
  induction s as [| c s IH] in n |- *; intros Hs Hn Hv; [done |].
  cbn in Hs. apply andb_true_iff in Hs as [Hc Hs].
  pose proof (isDigit_range c Hc) as Hr.
  cbn [strconv.parseLoop]. rewrite digitVal_digit by done.
  cbn in Hv. fold (decimalFrom (n * 10 + (byteZ c - 48)) s) in Hv.
  pose proof (decimalFrom_ge s (n * 10 + (byteZ c - 48)) Hs ltac:(lia)).
  destruct (Z.leb_spec 10 (byteZ c - 48)); [lia |].
  unfold strconv.maxUint64, strconv.wrap64.
  change (2 ^ 64) with 18446744073709551616 in *.
  change ((18446744073709551616 - 1) / 10 + 1) with 1844674407370955162.
  destruct (Z.leb_spec 1844674407370955162 n); [lia |].
  rewrite (Z.mod_small (n * 10)) by lia.
  rewrite (Z.mod_small (n * 10 + _)) by lia.
  destruct (Z.ltb_spec (n * 10 + (byteZ c - 48)) (n * 10)); [lia |].
  destruct (Z.ltb_spec (18446744073709551616 - 1)
              (n * 10 + (byteZ c - 48))); [lia |].
  cbn [orb]. rewrite IH; [done .. | lia | done].
Qed.

(** [ParseUint] reads a numeral as the number it denotes. *)
Lemma ParseUint10_numeral v s :
  numeral v s → strconv.ParseUint10 s = (v, None).
Proof.
  intros (Hne & Hd & Hv & Hlt). unfold strconv.ParseUint10.
  destruct s as [| c s]; [done |].
  rewrite parseLoop_digits; [by rewrite <- Hv | done | lia |].
  unfold decimal in Hv. lia.
Qed.

End Numbers.

(** ** Reading lines *)
Section Reading.
Import Layout.

Lemma cut_found d pre rest :
  free d pre = true → bufio.cut d (pre ++ d :: rest) = Some (pre ++ [d], rest).
Proof.
  induction pre as [| c pre IH]; intros Hpre; cbn.
  - by rewrite Ascii.eqb_refl.
  - cbn in Hpre. apply andb_true_iff in Hpre as [Hc Hpre].
    apply negb_true_iff in Hc. rewrite Hc, IH by done. done.
Qed.

Lemma cut_missing d s : free d s = true → bufio.cut d s = None.
Proof.
  induction s as [| c s IH]; intros Hs; [done |].
  cbn in Hs. apply andb_true_iff in Hs as [Hc Hs].
  apply negb_true_iff in Hc. cbn. by rewrite Hc, IH.
Qed.

(** A complete line is returned with its delimiter. *)
Lemma ReadString_line d pre rest e :
  free d pre = true →
  bufio.ReadString {| bufio.pending := pre ++ d :: rest; bufio.ending := e |} d
  = (pre ++ [d], {| bufio.pending := rest; bufio.ending := e |}, None).
Proof.
  intros Hpre. unfold bufio.ReadString. cbn. by rewrite cut_found.
Qed.

(** When the stream ends before the delimiter the read fails with the
    stream's error. *)
Lemma ReadString_end d s e :
  free d s = true →
  bufio.ReadString {| bufio.pending := s; bufio.ending := e |} d
  = (s, {| bufio.pending := []; bufio.ending := e |}, Some e).
Proof.
  intros Hs. unfold bufio.ReadString. cbn. by rewrite cut_missing.
Qed.

End Reading.

(** ** Sequencing *)
Section Sequencing.

Lemma bind_ret {A B} (a : A) (k : A → Op B) : bind (ret a) k = k a.
Proof. unfold bind, ret. by destruct (k a). Qed.

Lemma bind_try_ok {A B} (a : A) (k : A → Op B) :
  bind (try (a, None)) k = k a.
Proof. apply bind_ret. Qed.

Lemma bind_try_err {A B} (a : A) e (k : A → Op B) :
  bind (try (a, Some e)) k = fail e.
Proof. done. Qed.

Lemma bind_index_ok {A B} (l : list A) i x (k : A → Op B) :
  l !! i = Some x → bind (index l i) k = k x.
Proof. intros Hx. unfold index. rewrite Hx. apply bind_ret. Qed.

Lemma bind_index_out {A B} (l : list A) i (k : A → Op B) :
  l !! i = None → bind (index l i) k = raise (IndexOutOfRange i (length l)).
Proof. intros Hx. unfold index. by rewrite Hx. Qed.

Lemma pure_try {A} (x : A * option error) : pure (try x).
Proof. by destruct x as [a [e |]]. Qed.

Lemma pure_index {A} (l : list A) i : pure (index l i).
Proof. unfold index. by destruct (l !! i). Qed.

End Sequencing.

(** ** The parser records all seven fields or nothing *)
Section AllOrNothing.

Lemma atomic_bind {A} tags (m : Op A) (k : A → Op unit) :
  pure m → (∀ a, atomic tags (k a)) → atomic tags (bind m k).
Proof.
  destruct m as [[a | e | p] evs]; unfold pure; cbn; intros -> Hk; try done.
  specialize (Hk a). by destruct (k a) as [[[] | e | p] evs'].
Qed.

Lemma dom_fields (a b c d e f g : Z) :
  dom ({[ "active" := a; "accepts" := b; "handled" := c; "requests" := d;
          "reading" := e; "writing" := f; "waiting" := g ]} : gmap string Z)
  = field_names.
Proof.
  rewrite !dom_insert_L, dom_singleton_L. unfold field_names. set_solver.
Qed.

Ltac step :=
  apply atomic_bind; [first [apply pure_try | apply pure_index] |];
  intros; repeat match goal with p : (_ * _)%type |- _ => destruct p end.

(** C7.  The plain-text parse is all-or-nothing: when [gatherStubStatusUrl]
    succeeds it has called [AddFields] exactly once, with the seven
    fields; on every failure (a read that meets the end of the stream, a
    token that is not an unsigned integer, a missing token) it has called
    the accumulator not at all. *)
Theorem gatherStubStatusUrl_all_or_nothing
    (r : bufio.Reader) (tags : gmap string string) :
  match gatherStubStatusUrl r tags with
  | (Val _, evs) =>
    ∃ fields : gmap string Z,
      evs = [AddFields "nginx" fields tags] ∧ dom fields = field_names
  | (Err _, evs) | (Panic _, evs) => evs = []
  end.
Proof.
  change (atomic tags (gatherStubStatusUrl r tags)).
  unfold gatherStubStatusUrl.
  do 18 step.
  eexists. split; [reflexivity | apply dom_fields].
Qed.

End AllOrNothing.

(** ** Well-formed pages *)
Section WellFormed.
Import Layout.

Lemma numeral_text v s : numeral v s → s ≠ [] ∧ forallb asciiText s = true.
Proof. intros (Hne & Hd & _). split; [done | by apply digits_text]. Qed.

Lemma word_text s : word s → s ≠ [] ∧ forallb asciiText s = true.
Proof. intros (Hne & Hg). split; [done | by apply graphic_text]. Qed.

Lemma gap_spaces s : gap s → s ≠ [] ∧ forallb asciiSpace s = true.
Proof. intros (Hne & Hb). split; [done | by apply blanks_spaces]. Qed.

Lemma numeral_free_LF v s : numeral v s → free LF s = true.
Proof. intros (_ & Hd & _). by apply digits_free_LF. Qed.

Lemma word_free_LF s : word s → free LF s = true.
Proof. intros (_ & Hg). by apply graphic_free_LF. Qed.

Lemma gap_free_LF s : gap s → free LF s = true.
Proof. intros (_ & Hb). by apply blanks_free_LF. Qed.

(** Blanks and a newline after the last token of a line. *)
Lemma line_end p : blanks p → p ++ [LF] ≠ [] ∧ forallb asciiSpace (p ++ [LF]) = true.
Proof.
  intros Hp. split; [by destruct p |].
  rewrite forallb_app, blanks_spaces by done. done.
Qed.

Lemma Fields_counters p0 n1 g1 n2 g2 n3 p3 a b c :
  blanks p0 → numeral a n1 → gap g1 → numeral b n2 → gap g2 →
  numeral c n3 → blanks p3 →
  strings.Fields ((p0 ++ n1 ++ g1 ++ n2 ++ g2 ++ n3 ++ p3) ++ [LF])
  = [n1; n2; n3].
Proof.
  intros Hp0 [??]%numeral_text [??]%gap_spaces [??]%numeral_text
    [??]%gap_spaces [??]%numeral_text [??]%line_end.
  unfold strings.Fields. rewrite <- !app_assoc.
  rewrite fieldsLoop_spaces by by apply blanks_spaces.
  do 2 (rewrite fields_token by done).
  rewrite <- (app_nil_r (p3 ++ [LF])), fields_token by done. done.
Qed.

Lemma Fields_states s a b c :
  states a b c s →
  ∃ l1 n1 l2 n2 l3 n3,
    strings.Fields (s ++ [LF]) = [l1; n1; l2; n2; l3; n3]
    ∧ numeral a n1 ∧ numeral b n2 ∧ numeral c n3.
Proof.
  intros [p0 l1 g1 n1 g2 l2 g3 n2 g4 l3 g5 n3 p6
            Hp0 Hl1 Hg1 Hn1 Hg2 Hl2 Hg3 Hn2 Hg4 Hl3 Hg5 Hn3 Hp6].
  exists l1, n1, l2, n2, l3, n3. split; [| done].
  apply word_text in Hl1 as [??], Hl2 as [??], Hl3 as [??].
  apply gap_spaces in Hg1 as [??], Hg2 as [??], Hg3 as [??],
    Hg4 as [??], Hg5 as [??].
  apply numeral_text in Hn1 as [??], Hn2 as [??], Hn3 as [??].
  apply line_end in Hp6 as [??].
  unfold strings.Fields. rewrite <- !app_assoc.
  rewrite fieldsLoop_spaces by by apply blanks_spaces.
  do 5 (rewrite fields_token by done).
  rewrite <- (app_nil_r (p6 ++ [LF])), fields_token by done. done.
Qed.

Lemma states_free_LF s a b c : states a b c s → free LF s = true.
Proof.
  intros [p0 l1 g1 n1 g2 l2 g3 n2 g4 l3 g5 n3 p6
            Hp0 Hl1 Hg1 Hn1 Hg2 Hl2 Hg3 Hn2 Hg4 Hl3 Hg5 Hn3 Hp6].
  rewrite !free_app.
  by rewrite (blanks_free_LF _ Hp0), (blanks_free_LF _ Hp6),
    (word_free_LF _ Hl1), (word_free_LF _ Hl2), (word_free_LF _ Hl3),
    (gap_free_LF _ Hg1), (gap_free_LF _ Hg2), (gap_free_LF _ Hg3),
    (gap_free_LF _ Hg4), (gap_free_LF _ Hg5),
    (numeral_free_LF _ _ Hn1), (numeral_free_LF _ _ Hn2),
    (numeral_free_LF _ _ Hn3).
Qed.

(** After the first three lines of a page showing [c] the parser has the
    first four counters and goes on with what follows. *)
Lemma gatherStubStatusUrl_head c hd rest e tags :
  page_head c hd →
  gatherStubStatusUrl {| bufio.pending := hd ++ rest; bufio.ending := e |} tags
  = (let* (line, r) := try (bufio.ReadString
                         {| bufio.pending := rest; bufio.ending := e |} LF) in
     let data := strings.Fields line in
     let* d1 := index data 1 in
     let* reading := try (strconv.ParseUint10 d1) in
     let* d3 := index data 3 in
     let* writing := try (strconv.ParseUint10 d3) in
     let* d5 := index data 5 in
     let* waiting := try (strconv.ParseUint10 d5) in
     let fields : gmap string Z :=
       {[ "active" := active c;
          "accepts" := accepts c;
          "handled" := handled c;
          "requests" := requests c;
          "reading" := reading;
          "writing" := writing;
          "waiting" := waiting ]} in
     log (AddFields "nginx" fields tags)).
Proof.
  intros [b1 b2 b3 Hb1 Hb2 Hb3].
  destruct Hb1 as [label p1 n p2 Hlabel Hp1 Hn Hp2].
  destruct Hb2 as [h Hh].
  destruct Hb3 as [p0 n1 g1 n2 g2 n3 p3 Hp0 Hn1 Hg1 Hn2 Hg2 Hn3 Hp3].
  assert (free LF (p1 ++ n ++ p2) = true) as Hc1.
  { rewrite !free_app.
    by rewrite (blanks_free_LF _ Hp1), (blanks_free_LF _ Hp2),
      (numeral_free_LF _ _ Hn). }
  assert (strings.TrimSpace ((p1 ++ n ++ p2) ++ [LF]) = n) as Ht1.
  { rewrite <- !app_assoc.
    apply numeral_text in Hn as [??]. apply line_end in Hp2 as [??].
    apply TrimSpace_token; try done. by apply blanks_spaces. }
  assert (free LF (p0 ++ n1 ++ g1 ++ n2 ++ g2 ++ n3 ++ p3) = true) as Hc3.
  { rewrite !free_app.
    by rewrite (blanks_free_LF _ Hp0), (blanks_free_LF _ Hp3),
      (gap_free_LF _ Hg1), (gap_free_LF _ Hg2), (numeral_free_LF _ _ Hn1),
      (numeral_free_LF _ _ Hn2), (numeral_free_LF _ _ Hn3). }
  pose proof (Fields_counters _ _ _ _ _ _ _ _ _ _
                Hp0 Hn1 Hg1 Hn2 Hg2 Hn3 Hp3) as Hf3.
  revert Hc1 Ht1 Hc3 Hf3.
  generalize (p1 ++ n ++ p2) as c1.
  generalize (p0 ++ n1 ++ g1 ++ n2 ++ g2 ++ n3 ++ p3) as c3.
  intros c3 c1 Hc1 Ht1 Hc3 Hf3.
  rewrite <- !app_assoc. cbn [app].
  unfold gatherStubStatusUrl.
  rewrite ReadString_line, bind_try_ok by done.
  rewrite ReadString_line, bind_try_ok by done.
  rewrite Ht1, (ParseUint10_numeral _ _ Hn), bind_try_ok.
  rewrite ReadString_line, bind_try_ok by done.
  rewrite ReadString_line, bind_try_ok by done.
  cbv zeta. rewrite Hf3.
  rewrite (bind_index_ok _ 0 n1), (ParseUint10_numeral _ _ Hn1),
    bind_try_ok by done.
  rewrite (bind_index_ok _ 1 n2), (ParseUint10_numeral _ _ Hn2),
    bind_try_ok by done.
  rewrite (bind_index_ok _ 2 n3), (ParseUint10_numeral _ _ Hn3),
    bind_try_ok by done.
  done.
Qed.

(** C2.  On every well-formed stub-status page, whatever follows its last
    line and however the stream ends after it, [gatherStubStatusUrl]
    succeeds and emits exactly one record, whose fields are exactly the
    seven counters [active], [accepts], [handled], [requests], [reading],
    [writing] and [waiting] with the values at their places in the
    page. *)
Theorem gatherStubStatusUrl_well_formed
    (c : Counters) (body : bytes) (e : error) (tags : gmap string string) :
  page c body →
  gatherStubStatusUrl {| bufio.pending := body; bufio.ending := e |} tags
  = (Val tt,
     [AddFields "nginx"
        {[ "active" := active c;
           "accepts" := accepts c;
           "handled" := handled c;
           "requests" := requests c;
           "reading" := reading c;
           "writing" := writing c;
           "waiting" := waiting c ]}
        tags]).
Proof.
  intros [hd b4 rest Hhd Hb4].
  rewrite (gatherStubStatusUrl_head c) by done.
  pose proof (states_free_LF _ _ _ _ Hb4) as Hfree.
  destruct (Fields_states _ _ _ _ Hb4)
    as (l1 & n1 & l2 & n2 & l3 & n3 & Hf & Hn1 & Hn2 & Hn3).
  cbn [app].
  rewrite ReadString_line, bind_try_ok by done.
  cbv zeta. rewrite Hf.
  rewrite (bind_index_ok _ 1 n1), (ParseUint10_numeral _ _ Hn1),
    bind_try_ok by done.
  rewrite (bind_index_ok _ 3 n2), (ParseUint10_numeral _ _ Hn2),
    bind_try_ok by done.
  rewrite (bind_index_ok _ 5 n3), (ParseUint10_numeral _ _ Hn3),
    bind_try_ok by done.
  done.
Qed.

End WellFormed.

(** ** Lines that are cut short *)
Section Truncated.
Import Layout.

Lemma cut_inv d s l rest :
  bufio.cut d s = Some (l, rest) →
  ∃ l', l = l' ++ [d] ∧ free d l' = true ∧ s = l' ++ d :: rest.
Proof.
  induction s as [| c s IH] in l |- *; [done |]. cbn.
  destruct (Ascii.eqb_spec c d) as [-> | Hcd].
  - intros [= <- <-]. by exists [].
  - destruct (bufio.cut d s) as [[l0 rest0] |] eqn:E; [| done].
    cbn. intros [= <- <-].
    destruct (IH l0 eq_refl) as (l' & -> & Hfree & ->).
    exists (c :: l'). split_and!; [done | | done].
    unfold free in *. cbn. rewrite Hfree.
    by destruct (Ascii.eqb_spec c d).
Qed.

(** A read that succeeds has found its delimiter. *)
Lemma ReadString_inv r d line r' :
  bufio.ReadString r d = (line, r', None) →
  ∃ l', line = l' ++ [d] ∧ free d l' = true
        ∧ bufio.pending r = l' ++ d :: bufio.pending r'.
Proof.
  unfold bufio.ReadString.
  destruct (bufio.cut d (bufio.pending r)) as [[l rest] |] eqn:E; [| done].
  intros [= <- <-]. by apply cut_inv.
Qed.

Lemma bind_Val_inv {A B} (m : Op A) (k : A → Op B) b evs :
  bind m k = (Val b, evs) →
  ∃ a e1 e2, m = (Val a, e1) ∧ k a = (Val b, e2) ∧ evs = e1 ++ e2.
Proof.
  destruct m as [[a | e | p] e1]; cbn; [| done ..].
  destruct (k a) as [r e2] eqn:E. intros [= -> <-]. by exists a, e1, e2.
Qed.

Lemma try_Val_inv {A} (x : A * option error) a evs :
  try x = (Val a, evs) → x = (a, None).
Proof. destruct x as [a' [e |]]; [done |]. by intros [= ->]. Qed.

(** The parser succeeds only on a body with four newline-terminated lines
    after the first colon. *)
Lemma gatherStubStatusUrl_needs_newlines r tags evs :
  gatherStubStatusUrl r tags = (Val tt, evs) → four_lines (bufio.pending r).
Proof.
  unfold gatherStubStatusUrl. intros Hrun.
  apply bind_Val_inv in Hrun as ([s0 r1] & ? & ? & H0%try_Val_inv & Hrun & _).
  apply bind_Val_inv in Hrun as ([s1 r2] & ? & ? & H1%try_Val_inv & Hrun & _).
  apply bind_Val_inv in Hrun as (a & ? & ? & _ & Hrun & _).
  apply bind_Val_inv in Hrun as ([s2 r3] & ? & ? & H2%try_Val_inv & Hrun & _).
  apply bind_Val_inv in Hrun as ([s3 r4] & ? & ? & H3%try_Val_inv & Hrun & _).
  cbv zeta in Hrun.
  do 6 (apply bind_Val_inv in Hrun as (? & ? & ? & _ & Hrun & _)).
  apply bind_Val_inv in Hrun as ([s4 r5] & ? & ? & H4%try_Val_inv & _).
  apply ReadString_inv in H0 as (label & _ & ? & E0).
  apply ReadString_inv in H1 as (l1 & _ & ? & E1).
  apply ReadString_inv in H2 as (l2 & _ & ? & E2).
  apply ReadString_inv in H3 as (l3 & _ & ? & E3).
  apply ReadString_inv in H4 as (l4 & _ & ? & E4).
  exists label, l1, l2, l3, l4, (bufio.pending r5).
  split_and!; try done.
  rewrite E0, E1, E2, E3, E4. by rewrite <- !app_assoc.
Qed.

(** When the stream ends inside the last line the parser returns the
    stream's error, whatever the line holds. *)
Lemma gatherStubStatusUrl_last_line_open c hd last e tags :
  page_head c hd → free LF last = true →
  gatherStubStatusUrl {| bufio.pending := hd ++ last; bufio.ending := e |} tags
  = (Err e, []).
Proof.
  intros Hhd Hlast. rewrite (gatherStubStatusUrl_head c) by done.
  by rewrite ReadString_end, bind_try_err.
Qed.

(** C10.  Every line the parser needs, the last one included, has to end
    with a newline: a body on which the parser succeeds has four
    newline-terminated lines after its first colon, and a page whose
    last line holds its three labelled numbers but is followed at once by
    the end of the stream is rejected with the stream's error ([io_EOF]
    for a body received whole), nothing being recorded. *)
Theorem gatherStubStatusUrl_needs_final_newline
    (c : Counters) (hd last : bytes) (e : error)
    (tags : gmap string string) :
  page_head c hd → states (reading c) (writing c) (waiting c) last →
  gatherStubStatusUrl {| bufio.pending := hd ++ last; bufio.ending := e |} tags
  = (Err e, [])
  ∧ ∀ r evs, gatherStubStatusUrl r tags = (Val tt, evs) →
             four_lines (bufio.pending r).
Proof.
  intros Hhd Hlast. split.
  - apply (gatherStubStatusUrl_last_line_open c); [done |].
    by eapply states_free_LF.
  - intros r evs. apply gatherStubStatusUrl_needs_newlines.
Qed.

End Truncated.

(** ** A counter line with too few numbers *)
Section ShortLine.

(** C4, as the code has it.  When the line of [accepts], [handled] and
    [requests] splits into fewer than three tokens the parse does not
    succeed and records nothing; but it ends in two different ways.  If a
    token that is present is not an unsigned integer, the parser returns
    that token's parse error.  If all tokens present are numbers, the
    access to the first missing token panics with an index out of range:
    no error value is returned. *)
Theorem gatherStubStatusUrl_short_counter_line
    (r r1 r2 r3 r4 : bufio.Reader) (x0 line1 x2 line : bytes) (a : Z)
    (tags : gmap string string) :
  bufio.ReadString r ":" = (x0, r1, None) →
  bufio.ReadString r1 LF = (line1, r2, None) →
  strconv.ParseUint10 (strings.TrimSpace line1) = (a, None) →
  bufio.ReadString r2 LF = (x2, r3, None) →
  bufio.ReadString r3 LF = (line, r4, None) →
  (length (strings.Fields line) < 3)%nat →
  match gatherStubStatusUrl r tags with
  | (Val _, _) => False
  | (Err e, evs) =>
    evs = [] ∧ ∃ tok v, tok ∈ strings.Fields line
                        ∧ strconv.ParseUint10 tok = (v, Some e)
  | (Panic p, evs) =>
    evs = [] ∧ p = IndexOutOfRange (length (strings.Fields line))
                                   (length (strings.Fields line))
             ∧ Forall (fun tok => (strconv.ParseUint10 tok).2 = None)
                      (strings.Fields line)
  end.
Proof.
  intros H0 H1 Ha H2 H3 Hlen. unfold gatherStubStatusUrl.
  rewrite H0, bind_try_ok, H1, bind_try_ok, Ha, bind_try_ok.
  rewrite H2, bind_try_ok, H3, bind_try_ok. cbv zeta.
  destruct (strings.Fields line) as [| t0 [| t1 [| t2 ?]]];
    [| | | cbn in Hlen; lia].
  - by rewrite bind_index_out.
  - rewrite (bind_index_ok _ 0 t0) by done.
    destruct (strconv.ParseUint10 t0) as [v0 [e0 |]] eqn:E0.
    + rewrite bind_try_err. split; [done |]. exists t0, v0.
      split; [apply list_elem_of_here | done].
    + rewrite bind_try_ok, bind_index_out by done.
      split_and!; [done .. |]. repeat constructor. by rewrite E0.
  - rewrite (bind_index_ok _ 0 t0) by done.
    destruct (strconv.ParseUint10 t0) as [v0 [e0 |]] eqn:E0.
    { rewrite bind_try_err. split; [done |]. exists t0, v0.
      split; [apply list_elem_of_here | done]. }
    rewrite bind_try_ok, (bind_index_ok _ 1 t1) by done.
    destruct (strconv.ParseUint10 t1) as [v1 [e1 |]] eqn:E1.
    { rewrite bind_try_err. split; [done |]. exists t1, v1.
      split; [apply list_elem_of_further, list_elem_of_here | done]. }
    rewrite bind_try_ok, bind_index_out by done.
    split_and!; [done .. |]. repeat constructor; by rewrite ?E0, ?E1.
Qed.

End ShortLine.

(** ** Tags *)
Section Tags.
Import Layout Authority.

Lemma IndexByte_None s c : strings.IndexByte s c = None ↔ free c s = true.
Proof.
  induction s as [| b s IH]; [done |]. unfold free in *. cbn.
  destruct (Ascii.eqb b c); cbn; [done |].
  rewrite <- IH. by destruct (strings.IndexByte s c).
Qed.

Lemma IndexByte_Some s c i :
  strings.IndexByte s c = Some i →
  ∃ pre post, s = pre ++ c :: post ∧ length pre = i ∧ free c pre = true.
Proof.
  induction s as [| b s IH] in i |- *; [done |]. cbn.
  destruct (Ascii.eqb_spec b c) as [-> | Hbc].
  - intros [= <-]. by exists [], s.
  - destruct (strings.IndexByte s c) as [j |]; [| done].
    intros [= <-]. destruct (IH j eq_refl) as (pre & post & -> & <- & Hfree).
    exists (b :: pre), post. split_and!; [done .. |].
    unfold free in *. cbn. rewrite Hfree.
    by destruct (Ascii.eqb_spec b c).
Qed.

Lemma IndexByte_found pre c post :
  free c pre = true →
  strings.IndexByte (pre ++ c :: post) c = Some (length pre).
Proof.
  induction pre as [| b pre IH]; intros Hpre; cbn.
  - by rewrite Ascii.eqb_refl.
  - unfold free in Hpre. cbn in Hpre.
    apply andb_true_iff in Hpre as [Hb Hpre].
    apply negb_true_iff in Hb. by rewrite Hb, IH.
Qed.

Lemma LastIndexByte_None s c :
  strings.LastIndexByte s c = None ↔ free c s = true.
Proof.
  induction s as [| b s IH]; [done |]. unfold free in *. cbn.
  destruct (strings.LastIndexByte s c).
  - split; [done |]. intros [_ H]%andb_true_iff. by apply IH in H.
  - rewrite (proj1 IH eq_refl).
    destruct (Ascii.eqb b c); cbn; split; done.
Qed.

Lemma LastIndexByte_Some s c i :
  strings.LastIndexByte s c = Some i →
  ∃ pre post, s = pre ++ c :: post ∧ length pre = i ∧ free c post = true.
Proof.
  induction s as [| b s IH] in i |- *; [done |]. cbn.
  destruct (strings.LastIndexByte s c) as [j |] eqn:E.
  - intros [= <-]. destruct (IH j eq_refl) as (pre & post & -> & <- & Hfree).
    by exists (b :: pre), post.
  - destruct (Ascii.eqb_spec b c) as [-> | Hbc]; [| done].
    intros [= <-]. exists [], s. by apply LastIndexByte_None in E.
Qed.

Lemma LastIndexByte_found pre c post :
  free c post = true →
  strings.LastIndexByte (pre ++ c :: post) c = Some (length pre).
Proof.
  intros Hpost. induction pre as [| b pre IH]; cbn.
  - apply LastIndexByte_None in Hpost. by rewrite Hpost, Ascii.eqb_refl.
  - by rewrite IH.
Qed.

Lemma free_cons d c s :
  free d (c :: s) = negb (Ascii.eqb c d) && free d s.
Proof. done. Qed.

Lemma plain_inv s :
  plain s = true → free ":" s = true ∧ free "[" s = true ∧ free "]" s = true.
Proof. unfold plain. rewrite !andb_true_iff. tauto. Qed.

(** [SplitHostPort] splits both forms. *)
Lemma SplitHostPort_explicit a host port :
  explicit_port a host port → net.SplitHostPort a = (host, port, None).
Proof.
  intros [h p (Hh1 & Hh2 & Hh3)%plain_inv (Hp1 & Hp2 & Hp3)%plain_inv
         | h p Hh2 Hh3 (Hp1 & Hp2 & Hp3)%plain_inv];
    unfold net.SplitHostPort; cbv zeta.
  - rewrite LastIndexByte_found by done.
    assert (net.byteIs (h ++ ":"%char :: p) 0 "[" = false) as ->.
    { destruct h as [| b h]; [done |]. unfold net.byteIs. cbn.
      rewrite free_cons in Hh2. apply andb_true_iff in Hh2 as [Hb _].
      by apply negb_true_iff in Hb. }
    rewrite take_app_length.
    rewrite (proj2 (IndexByte_None h ":") Hh1), !drop_0.
    rewrite (proj2 (IndexByte_None (h ++ ":"%char :: p) "["))
      by (by rewrite free_app, free_cons, Hh2, Hp2).
    rewrite (proj2 (IndexByte_None (h ++ ":"%char :: p) "]"))
      by (by rewrite free_app, free_cons, Hh3, Hp3).
    replace (S (length h)) with (length h + 1) by lia.
    by rewrite <- drop_drop, drop_app_length.
  - change ("["%char :: h ++ "]"%char :: ":"%char :: p)
      with (("["%char :: h) ++ "]"%char :: ":"%char :: p).
    set (hp := ("["%char :: h) ++ "]"%char :: ":"%char :: p).
    assert (strings.LastIndexByte hp ":" = Some (S (S (length h)))) as ->.
    { unfold hp.
      replace (("["%char :: h) ++ "]"%char :: ":"%char :: p)
        with (("["%char :: h ++ ["]"%char]) ++ ":"%char :: p)
        by (cbn; by rewrite <- app_assoc).
      rewrite LastIndexByte_found by done. cbn.
      rewrite length_app. cbn. f_equal. lia. }
    assert (strings.IndexByte hp "]" = Some (S (length h))) as ->.
    { unfold hp. by rewrite IndexByte_found by (by rewrite free_cons, Hh3). }
    assert (net.byteIs hp 0 "[" = true) as -> by done.
    assert (length hp = S (S (S (length h + length p)))) as Hlen.
    { unfold hp. rewrite length_app. cbn. lia. }
    rewrite Hlen.
    destruct (Nat.eqb_spec (S (length h) + 1) (S (S (S (length h + length p)))));
      [lia |].
    destruct (Nat.eqb_spec (S (length h) + 1) (S (S (length h)))); [| lia].
    assert (take (S (length h)) hp = "["%char :: h) as ->.
    { unfold hp. by rewrite (take_app_length ("["%char :: h)). }
    assert (drop 1 hp = h ++ "]"%char :: ":"%char :: p) as -> by done.
    assert (drop (S (length h) + 1) hp = ":"%char :: p) as ->.
    { unfold hp. replace (S (length h) + 1) with (length ("["%char :: h) + 1)
        by done.
      rewrite <- drop_drop, drop_app_length. done. }
    assert (drop (S (S (S (length h)))) hp = p) as ->.
    { unfold hp. replace (S (S (S (length h))))
        with (length ("["%char :: h) + 2) by (cbn; lia).
      rewrite <- drop_drop, drop_app_length. done. }
    rewrite (proj2 (IndexByte_None (h ++ "]"%char :: ":"%char :: p) "["))
      by (by rewrite free_app, !free_cons, Hh2, Hp2).
    rewrite (proj2 (IndexByte_None (":"%char :: p) "]"))
      by (by rewrite free_cons, Hp3).
    done.
Qed.

(** [SplitHostPort] splits nothing else. *)
Lemma SplitHostPort_success a host port :
  net.SplitHostPort a = (host, port, None) → explicit_port a host port.
Proof.
  unfold net.SplitHostPort; cbv zeta.
  destruct (strings.LastIndexByte a ":") as [i |] eqn:Ei; [| done].
  apply LastIndexByte_Some in Ei as (pre & post & -> & <- & Hpost).
  set (hp := pre ++ ":"%char :: post).
  destruct (net.byteIs hp 0 "[") eqn:Eb.
  - destruct (strings.IndexByte hp "]") as [e |] eqn:Ee; [| done].
    destruct (e + 1 =? length hp); [done |].
    destruct (Nat.eqb_spec (e + 1) (length pre)) as [Hei |];
      [| by destruct (net.byteIs hp (e + 1) ":")].
    apply IndexByte_Some in Ee as (pre' & post' & Ehp & <- & Hpre').
    assert (pre = pre' ++ ["]"%char] ∧ post' = ":"%char :: post) as [-> ->].
    { unfold hp in Ehp.
      replace (pre' ++ "]"%char :: post')
        with ((pre' ++ ["]"%char]) ++ post') in Ehp
        by (by rewrite <- app_assoc).
      apply app_inj_1 in Ehp as [-> <-]; [done |].
      rewrite length_app. cbn. lia. }
    destruct pre' as [| b h]; [done |].
    unfold net.byteIs in Eb. cbn in Eb. apply Ascii.eqb_eq in Eb as ->.
    unfold hp. clear hp Ehp Hei.
    rewrite free_cons in Hpre'. cbn in Hpre'.
    replace ((("["%char :: h) ++ ["]"%char]) ++ ":"%char :: post)
      with (("["%char :: h) ++ "]"%char :: ":"%char :: post)
      by (by rewrite <- app_assoc).
    rewrite (take_app_length ("["%char :: h)).
    change (drop 1 (("["%char :: h) ++ "]"%char :: ":"%char :: post))
      with (h ++ "]"%char :: ":"%char :: post).
    replace (length ("["%char :: h) + 1 + 0)
      with (length ("["%char :: h) + 1) by lia.
    replace (drop (length ("["%char :: h) + 1)
               (("["%char :: h) ++ "]"%char :: ":"%char :: post))
      with (":"%char :: post)
      by (by rewrite <- drop_drop, drop_app_length).
    destruct (strings.IndexByte (h ++ "]"%char :: ":"%char :: post) "[")
      eqn:E1; [done |].
    destruct (strings.IndexByte (":"%char :: post) "]") eqn:E2; [done |].
    apply IndexByte_None in E1, E2.
    rewrite free_app, !free_cons in E1. rewrite free_cons in E2.
    apply andb_true_iff in E1 as [Hh E1]. cbn in E1, E2.
    assert (drop (S (length (("["%char :: h) ++ ["]"%char])))
              (("["%char :: h) ++ "]"%char :: ":"%char :: post) = post)
      as ->.
    { replace (("["%char :: h) ++ "]"%char :: ":"%char :: post)
        with (((("["%char :: h) ++ ["]"%char]) ++ [":"%char]) ++ post)
        by (by rewrite <- !app_assoc).
      replace (S (length (("["%char :: h) ++ ["]"%char])))
        with (length ((("["%char :: h) ++ ["]"%char]) ++ [":"%char]))
        by (rewrite !length_app; cbn; lia).
      apply drop_app_length. }
    intros [= <- <-]. cbn [drop]. rewrite drop_0.
    apply port_after_literal; [done .. |].
    unfold plain. by rewrite Hpost, E1, E2.
  - subst hp. rewrite take_app_length.
    destruct (strings.IndexByte pre ":") eqn:E0; [done |].
    rewrite !drop_0.
    destruct (strings.IndexByte (pre ++ ":"%char :: post) "[") eqn:E1;
      [done |].
    destruct (strings.IndexByte (pre ++ ":"%char :: post) "]") eqn:E2;
      [done |].
    apply IndexByte_None in E0, E1, E2.
    rewrite free_app, free_cons in E1, E2.
    apply andb_true_iff in E1 as [Hh1 Hp1], E2 as [Hh2 Hp2].
    cbn in Hp1, Hp2.
    replace (S (length pre)) with (length pre + 1) by lia.
    rewrite <- drop_drop, drop_app_length. cbn [drop]. rewrite drop_0.
    intros [= <- <-].
    apply port_after_name; unfold plain.
    + by rewrite E0, Hh1, Hh2.
    + by rewrite Hpost, Hp1, Hp2.
Qed.

(** When [SplitHostPort] fails it returns the error alone. *)
Lemma SplitHostPort_outcome a :
  (∃ host port, net.SplitHostPort a = (host, port, None))
  ∨ (∃ e, net.SplitHostPort a = ([], [], Some e)).
Proof.
  unfold net.SplitHostPort, net.addrErr; cbv zeta.
  repeat match goal with
         | |- context [match ?x with _ => _ end] => destruct x
         end; eauto.
Qed.

Lemma dom_tags (host port : string) :
  dom ({[ "server" := host; "port" := port ]} : gmap string string)
  = {[ "server"; "port" ]}.
Proof. by rewrite dom_insert_L, dom_singleton_L. Qed.

(** C6.  [getTags] returns a map with exactly the two keys [server] and
    [port].  When the authority of the URL names a port, as [host:port]
    or as [[host]:port], the two tags are that host and that port.  In
    every other case [server] is the whole authority and [port] is the
    default of the scheme: [80] for [http], [443] for [https] and the
    empty string for any other scheme. *)
Theorem getTags_spec (addr : URL) :
  dom (getTags addr) = {[ "server"; "port" ]}
  ∧ (∀ host port,
       explicit_port (B (Host addr)) host port →
       getTags addr = {[ "server" := S_ host; "port" := S_ port ]})
  ∧ ((∀ host port, ¬ explicit_port (B (Host addr)) host port) →
     getTags addr = {[ "server" := Host addr;
                       "port" := default_port (Scheme addr) ]}).
Proof.
  unfold getTags, default_port. split_and!.
  - destruct (net.SplitHostPort (B (Host addr))) as [[h p] [e |]];
      apply dom_tags.
  - intros host port Hex. by rewrite (SplitHostPort_explicit _ _ _ Hex).
  - intros Hnone.
    destruct (SplitHostPort_outcome (B (Host addr)))
      as [(h & p & E) | (e & E)]; rewrite E; [| done].
    by apply SplitHostPort_success, Hnone in E.
Qed.

End Tags.

(** ** The collector *)
Section Collector.
Context `{Collaborators}.
Local Open Scope Z_scope.

(** C5.  When the TLS material loads, the client that [createHttpClient]
    builds has a timeout of five seconds if the requested timeout is
    below one second (zero and negative values included), and the
    requested timeout itself otherwise. *)
Theorem createHttpClient_timeout (n : Nginx) (tlsCfg : TLSConfig) :
  GetTLSConfig (SSLCert n) (SSLKey n) (SSLCA n) (InsecureSkipVerify n)
  = inl tlsCfg →
  ∃ c n', createHttpClient n = (Some c, None, n')
          ∧ TLSClientConfig c = tlsCfg
          ∧ (ResponseTimeout n < Second → Timeout c = 5 * Second)
          ∧ (Second <= ResponseTimeout n → Timeout c = ResponseTimeout n).
Proof.
  intros Htls. unfold createHttpClient. rewrite Htls.
  destruct (Z.ltb_spec (ResponseTimeout n) Second);
    eexists _, _; (split; [reflexivity |]); cbn; split_and!; try done; lia.
Qed.

Lemma Split_head s sep : strings.Split s sep !! 0%nat = Some (before sep s).
Proof.
  induction s as [| c s IH]; [done |]. cbn.
  destruct (Ascii.eqb c sep); [done |].
  destruct (strings.Split s sep) as [| f fs]; [done |].
  cbn in *. by injection IH as ->.
Qed.

(** C3, as the code has it.  [gatherUrl] accepts status 200 alone.  For
    every response with another status, processing fails with an error
    whose text holds the address and the status line, and neither the
    content type nor the body is looked at.  For every response with
    status 200 the check passes and processing goes on with the part of
    the content type before the first semicolon. *)
Theorem gatherUrl_status
    (n : Nginx) (a : URL) (c : Client TLSConfig) (resp : Response) :
  client n = Some c → http_Get c (URL_String a) = inl resp →
  (StatusCode resp ≠ 200 →
   gatherUrl n (Some a)
   = (Err (fmt_Errorf (URL_String a +:+ " returned HTTP status "
                       +:+ Status resp)),
      [Request (URL_String a)]))
  ∧ (StatusCode resp = 200 →
     gatherUrl n (Some a)
     = let contentType := before ";" (ContentType resp) in
       let* _ := log (Request (URL_String a)) in
       if String.eqb contentType "text/plain" then
         gatherStubStatusUrl (bufio.NewReader (Body resp)) (getTags a)
       else if String.eqb contentType "application/json" then
         gatherStatusUrl (bufio.NewReader (Body resp)) (getTags a)
       else
         fail (fmt_Errorf (URL_String a
                           +:+ " returned unexpected content type "
                           +:+ contentType))).
Proof.
  intros Hc Hget. unfold gatherUrl. cbn [deref]. rewrite bind_ret, Hc.
  cbn [deref]. rewrite bind_ret, Hget. unfold StatusOK. split; intros Hs.
  - by destruct (Z.eqb_spec (StatusCode resp) 200).
  - destruct (Z.eqb_spec (StatusCode resp) 200); [| done]. cbn [negb].
    cbv zeta. by rewrite (bind_index_ok _ _ _ _ (Split_head _ _)).
Qed.







(** A cycle of a collector that has its client leaves the collector as
    it was. *)
Lemma Gather_keeps_receiver n c : client n = Some c → (Gather n).1.2 = n.
Proof.
  intros Hc. unfold Gather. rewrite Hc. by destruct (rangeUrls n (Urls n)).
Qed.

(** C9.  Once the client is there, [Gather] does not build another one:
    a cycle leaves the whole collector as it was, and through any
    sequence of cycles and of changes to the configuration the client
    stays the one that was built first. *)
Theorem client_built_once
    (n : Nginx) (c : Client TLSConfig) (steps : list Step) :
  client n = Some c →
  (Gather n).1.2 = n ∧ client (foldl step n steps) = Some c.
Proof.
  intros Hc. split; [by eapply Gather_keeps_receiver |].
  induction steps as [| s steps IH] in n, Hc |- *; [done |].
  cbn [foldl]. apply IH. destruct s; [| done].
  cbn [step]. by rewrite (Gather_keeps_receiver n c).
Qed.

End Collector.

(** ** The test bench at work *)
Section Bench.
Import Sample.
#[local] Existing Instance bench.
Local Open Scope Z_scope.

Ltac shape := first [reflexivity | discriminate | split; shape].

Lemma sample_head :
  Layout.page_head shown
    (lines ["Active connections: 3";
            "server accepts handled requests";
            " 4 4 5"]).
Proof.
  refine (Layout.mk_head shown _ _ _
            (Layout.mk_active 3 (B "Active connections") (B " ") (B "3") []
               _ _ _ _)
            (Layout.mk_heading (B "server accepts handled requests") _)
            (Layout.mk_counters 4 4 5 (B " ") (B "4") (B " ") (B "4")
               (B " ") (B "5") [] _ _ _ _ _ _ _));
    shape.
Qed.

Lemma sample_states :
  Layout.states 1 2 0 (B "Reading: 1 Writing: 2 Waiting: 0").
Proof.
  refine (Layout.mk_states 1 2 0 [] (B "Reading:") (B " ") (B "1") (B " ")
            (B "Writing:") (B " ") (B "2") (B " ")
            (B "Waiting:") (B " ") (B "0") []
            _ _ _ _ _ _ _ _ _ _ _ _ _);
    shape.
Qed.

Lemma sample_page : Layout.page shown page.
Proof.
  exact (Layout.mk_page shown _ _ [] sample_head sample_states).
Qed.

(** The page of the specification is parsed as the specification says. *)
Lemma gatherStubStatusUrl_well_formed_witness :
  Layout.page shown page
  ∧ gatherStubStatusUrl
      (bufio.NewReader {| io.content := page; io.failure := io_EOF |}) ∅
    = (Val tt,
       [AddFields "nginx"
          {[ "active" := 3; "accepts" := 4; "handled" := 4;
             "requests" := 5; "reading" := 1; "writing" := 2;
             "waiting" := 0 ]}
          ∅]).
Proof.
  split; [exact sample_page |].
  exact (gatherStubStatusUrl_well_formed shown page io_EOF ∅ sample_page).
Defined.

(** The same page without its last newline is rejected. *)
Lemma gatherStubStatusUrl_needs_final_newline_witness :
  gatherStubStatusUrl
    (bufio.NewReader
       {| io.content := page_unterminated; io.failure := io_EOF |}) ∅
  = (Err io_EOF, []).
Proof.
  exact (proj1 (gatherStubStatusUrl_needs_final_newline shown _ _ io_EOF ∅
                  sample_head sample_states)).
Defined.

(** A counter line with two numbers: the parser panics. *)
Lemma gatherStubStatusUrl_short_line_panics :
  strings.Fields (B " 4 4" ++ [LF]) = [B "4"; B "4"]
  ∧ gatherStubStatusUrl
      (bufio.NewReader {| io.content := page_short; io.failure := io_EOF |})
      ∅
    = (Panic (IndexOutOfRange 2 2), []).
Proof. split; vm_compute; reflexivity. Qed.

Lemma gatherStubStatusUrl_short_counter_line_witness :
  match gatherStubStatusUrl
          (bufio.NewReader
             {| io.content := page_short; io.failure := io_EOF |}) ∅
  with
  | (Val _, _) => False
  | (Err e, evs) =>
    evs = [] ∧ ∃ tok v, tok ∈ [B "4"; B "4"]
                        ∧ strconv.ParseUint10 tok = (v, Some e)
  | (Panic p, evs) =>
    evs = [] ∧ p = IndexOutOfRange 2 2
    ∧ Forall (fun tok => (strconv.ParseUint10 tok).2 = None) [B "4"; B "4"]
  end.
Proof.
  set (r := bufio.NewReader
              {| io.content := page_short; io.failure := io_EOF |}).
  set (r1 := (bufio.ReadString r ":").1.2).
  set (r2 := (bufio.ReadString r1 LF).1.2).
  set (r3 := (bufio.ReadString r2 LF).1.2).
  set (r4 := (bufio.ReadString r3 LF).1.2).
  exact (gatherStubStatusUrl_short_counter_line r r1 r2 r3 r4
           (B "Active connections:") (B " 3" ++ [LF])
           (B "server accepts handled requests" ++ [LF])
           (B " 4 4" ++ [LF]) 3 ∅
           eq_refl eq_refl eq_refl eq_refl eq_refl
           ltac:(vm_compute; lia)).
Defined.

(** Two hundred milliseconds become five seconds; ten seconds stay. *)
Lemma createHttpClient_timeout_witness :
  (∃ c n', createHttpClient (fresh [] 200000000) = (Some c, None, n')
           ∧ Timeout c = 5000000000)
  ∧ (∃ c n', createHttpClient (fresh [] 10000000000) = (Some c, None, n')
             ∧ Timeout c = 10000000000).
Proof.
  split.
  - destruct (createHttpClient_timeout (fresh [] 200000000) tt eq_refl)
      as (c & n' & E & _ & Hlow & _).
    exists c, n'. split; [exact E | exact (Hlow eq_refl)].
  - destruct (createHttpClient_timeout (fresh [] 10000000000) tt eq_refl)
      as (c & n' & E & _ & _ & Hhigh).
    exists c, n'. split; [exact E |]. apply Hhigh. unfold Second. cbn. lia.
Defined.

(** The tags of the specification's examples. *)
Lemma getTags_examples :
  getTags {| Scheme := "http"; Host := "localhost"; Path := "/status" |}
  = {[ "server" := "localhost"; "port" := "80" ]}
  ∧ getTags {| Scheme := "https"; Host := "example.com:9443"; Path := "/x" |}
    = {[ "server" := "example.com"; "port" := "9443" ]}
  ∧ getTags {| Scheme := "unix"; Host := "socket"; Path := "" |}
    = {[ "server" := "socket"; "port" := "" ]}
  ∧ getTags {| Scheme := "http"; Host := "[::1]:8080"; Path := "/" |}
    = {[ "server" := "::1"; "port" := "8080" ]}.
Proof. split_and!; vm_compute; reflexivity. Qed.

(** A response with status 206 is in the success class and is rejected. *)
Lemma gatherUrl_rejects_206 :
  ∃ resp,
    http_Get built "http://d.example/partial" = inl resp
    ∧ 200 <= StatusCode resp < 300
    ∧ ContentType resp = "text/plain"
    ∧ gatherUrl (set_client (Some built) (fresh [] 0))
        (Some (url "d.example" "/partial"))
      = (Err (fmt_Errorf
                "http://d.example/partial returned HTTP status 206 Partial Content"),
         [Request "http://d.example/partial"]).
Proof.
  eexists. split; [reflexivity |]. split; [cbn; lia |].
  split; [reflexivity |]. vm_compute. reflexivity.
Qed.

(** Status 500 is an error of the endpoint; status 200 lets the page
    through. *)
Lemma gatherUrl_status_witness :
  gatherUrl (set_client (Some built) (fresh [] 0))
    (Some (url "a.example" "/error"))
  = (Err (fmt_Errorf
            "http://a.example/error returned HTTP status 500 Internal Server Error"),
     [Request "http://a.example/error"]).
Proof.
  refine (proj1 (gatherUrl_status (set_client (Some built) (fresh [] 0))
                   (url "a.example" "/error") built _ eq_refl eq_refl) _).
  discriminate.
Defined.


(** The whole cycle on that configuration: the program panics before
    the second, healthy endpoint is looked at. *)
Lemma Gather_unparsable_address_crashes :
  let n := fresh ["://localhost/status"; "http://localhost/status"] 0 in
  (Gather n).1.1 = Panic NilDereference
  ∧ (Gather n).2
    = [AddError (Some (fmt_Errorf
         "Unable to parse address '://localhost/status': missing protocol scheme"));
       Spawn None].
Proof. split; vm_compute; reflexivity. Qed.



(** A collector with its client keeps it through a change of every
    setting (to a certificate that cannot be loaded) and two cycles. *)
Lemma client_built_once_witness :
  client (foldl step (set_client (Some built) (fresh ["http://localhost/status"] 0))
            [Reconfigure ["http://a.example/error"] "/ca.pem" "/missing.pem"
               "/key.pem" true (30 * Second);
             Cycle; Cycle])
  = Some built.
Proof.
  exact (proj2 (client_built_once
                  (set_client (Some built) (fresh ["http://localhost/status"] 0))
                  built _ eq_refl)).
Defined.

End Bench.

(** ** What the parser takes as a number *)
Section Verdicts.
Import Layout.
Local Open Scope Z_scope.

Lemma digitPrefix_digits s : forallb isDigit (digitPrefix s) = true.
Proof.
  induction s as [| c s IH]; [done |]. cbn.
  destruct (isDigit c) eqn:Hc; [| done]. cbn. by rewrite Hc.
Qed.

Lemma digitPrefix_all s : forallb isDigit s = true → digitPrefix s = s.
Proof.
  induction s as [| c s IH]; [done |]. cbn.
  intros [Hc Hs]%andb_true_iff. by rewrite Hc, IH.
Qed.

Lemma digitPrefix_whole s :
  length (digitPrefix s) = length s → forallb isDigit s = true.
Proof.
  induction s as [| c s IH]; [done |]. cbn.
  destruct (isDigit c); [| done]. cbn. intros [= Hlen]. by apply IH.
Qed.

(** A byte that is no decimal digit is rejected by the digit switch of
    [ParseUint] in base ten. *)
Lemma digitVal_other c :
  isDigit c = false →
  match strconv.digitVal (byteZ c) with
  | Some d => 10 <= d
  | None => True
  end.
Proof.
  unfold isDigit, strconv.digitVal. intros ->.
  destruct (_ && _) eqn:E; [| done].
  apply andb_true_iff in E as [E _]. apply Z.leb_le in E. lia.
Qed.

(** The digit loop, whatever the string. *)
Lemma parseLoop_verdict s0 s n :
  0 <= n < 2 ^ 64 →
  strconv.parseLoop 10 s0 s n
  = if 2 ^ 64 <=? decimalFrom n (digitPrefix s)
    then (strconv.maxUint64, Some (strconv.rangeError "ParseUint" s0))
    else if (length (digitPrefix s) =? length s)%nat
         then (decimalFrom n s, None)
         else (0, Some (strconv.syntaxError "ParseUint" s0)).
Proof.
  induction s as [| c s IH] in n |- *; intros Hn.
  - cbn. destruct (Z.leb_spec (2 ^ 64) n); [lia | done].
  - cbn [strconv.parseLoop digitPrefix].
    destruct (isDigit c) eqn:Hc.
    + pose proof (isDigit_range c Hc) as Hr.
      rewrite digitVal_digit by done.
      destruct (Z.leb_spec 10 (byteZ c - 48)); [lia |].
      pose proof (decimalFrom_ge (digitPrefix s) (n * 10 + (byteZ c - 48))
                    (digitPrefix_digits s) ltac:(lia)) as Hge.
      change (decimalFrom n (c :: digitPrefix s))
        with (decimalFrom (n * 10 + (byteZ c - 48)) (digitPrefix s)).
      change (decimalFrom n (c :: s))
        with (decimalFrom (n * 10 + (byteZ c - 48)) s).
      unfold strconv.maxUint64, strconv.wrap64.
      change (2 ^ 64) with 18446744073709551616 in *.
      change ((18446744073709551616 - 1) / 10 + 1) with 1844674407370955162.
      destruct (Z.leb_spec 1844674407370955162 n).
      { destruct (Z.leb_spec 18446744073709551616
                    (decimalFrom (n * 10 + (byteZ c - 48)) (digitPrefix s)));
          [done | lia]. }
      rewrite (Z.mod_small (n * 10)) by lia.
      destruct (Z_lt_le_dec (n * 10 + (byteZ c - 48)) 18446744073709551616)
        as [Hfit | Hover].
      * rewrite (Z.mod_small (n * 10 + _)) by lia.
        destruct (Z.ltb_spec (n * 10 + (byteZ c - 48)) (n * 10)); [lia |].
        destruct (Z.ltb_spec (18446744073709551616 - 1)
                    (n * 10 + (byteZ c - 48))); [lia |].
        cbn [orb length Nat.eqb]. by rewrite IH by lia.
      * replace ((n * 10 + (byteZ c - 48)) mod 18446744073709551616)
          with (n * 10 + (byteZ c - 48) - 18446744073709551616).
        2:{ apply (Z.mod_unique _ _ 1); lia. }
        destruct (Z.ltb_spec (n * 10 + (byteZ c - 48) - 18446744073709551616)
                    (n * 10)); [| lia].
        cbn [orb].
        destruct (Z.leb_spec 18446744073709551616
                    (decimalFrom (n * 10 + (byteZ c - 48)) (digitPrefix s)));
          [done | lia].
    + cbn [decimalFrom fold_left length Nat.eqb].
      destruct (Z.leb_spec (2 ^ 64) n); [lia |].
      pose proof (digitVal_other c Hc) as Hd.
      destruct (strconv.digitVal (byteZ c)) as [d |]; [| done].
      by destruct (Z.leb_spec 10 d); [| lia].
Qed.

(** [ParseUint], whatever the token. *)
Lemma ParseUint10_verdict tok :
  strconv.ParseUint10 tok
  = match verdict tok with
    | None => (decimal tok, None)
    | Some ErrRange =>
      (strconv.maxUint64, Some (strconv_NumError "ParseUint" tok ErrRange))
    | Some ErrSyntax => (0, Some (strconv_NumError "ParseUint" tok ErrSyntax))
    end.
Proof.
  unfold strconv.ParseUint10, verdict. destruct tok as [| c tok]; [done |].
  rewrite parseLoop_verdict by done. unfold decimal.
  destruct (_ <=? _); [done |]. by destruct (_ =? _)%nat.
Qed.

Lemma verdict_numeral tok : verdict tok = None ↔ numeral (decimal tok) tok.
Proof.
  unfold verdict, numeral. destruct tok as [| c tok].
  { split; [done | by intros [? _]]. }
  destruct (Z.leb_spec (2 ^ 64) (decimal (digitPrefix (c :: tok)))) as [Hov | Hfit].
  - split; [done |]. intros (_ & Hd & _ & Hlt).
    rewrite digitPrefix_all in Hov by done. lia.
  - destruct (Nat.eqb_spec (length (digitPrefix (c :: tok))) (length (c :: tok)))
      as [Hlen | Hlen].
    + split; [| done]. intros _.
      pose proof (digitPrefix_whole _ Hlen) as Hd.
      rewrite digitPrefix_all in Hfit by done. done.
    + split; [done |]. intros (_ & Hd & _).
      by rewrite digitPrefix_all in Hlen.
Qed.

(** What [ParseUint] accepts is a numeral, and the value is the number the
    numeral denotes. *)
Lemma ParseUint10_accepts tok v :
  strconv.ParseUint10 tok = (v, None) → numeral v tok.
Proof.
  rewrite ParseUint10_verdict.
  destruct (verdict tok) as [[] |] eqn:E; [done .. |].
  intros [= <-]. by apply verdict_numeral.
Qed.

(** Its errors name the token. *)
Lemma ParseUint10_error tok v e :
  strconv.ParseUint10 tok = (v, Some e) →
  ∃ kind, e = strconv_NumError "ParseUint" tok kind.
Proof.
  rewrite ParseUint10_verdict.
  destruct (verdict tok) as [[] |]; intros [= <- <-]; eauto.
Qed.

End Verdicts.

(** ** Exactly what the parser takes, and how it fails *)
Section Parser.
Import Layout.

Lemma bind_try_inv {A B} (x : A * option error) (k : A → Op B) b evs :
  bind (try x) k = (Val b, evs) → ∃ a, x = (a, None) ∧ k a = (Val b, evs).
Proof.
  destruct x as [a [e |]]; [done |]. rewrite bind_try_ok. by exists a.
Qed.

Lemma bind_index_inv {A B} (l : list A) i (k : A → Op B) b evs :
  bind (index l i) k = (Val b, evs) →
  ∃ a, l !! i = Some a ∧ k a = (Val b, evs).
Proof.
  unfold index. destruct (l !! i) as [a |]; [| done].
  rewrite bind_ret. by exists a.
Qed.

Lemma ReadString_ending r d :
  bufio.ending (bufio.ReadString r d).1.2 = bufio.ending r.
Proof.
  unfold bufio.ReadString.
  by destruct (bufio.cut d (bufio.pending r)) as [[] |].
Qed.

Lemma ReadString_error r d line r' e :
  bufio.ReadString r d = (line, r', Some e) → e = bufio.ending r.
Proof.
  unfold bufio.ReadString.
  destruct (bufio.cut d (bufio.pending r)) as [[] |]; [done |].
  by intros [= _ _ <-].
Qed.

(** Every body of [accepted] is parsed, with the values it shows. *)
Lemma accepted_parses c body e tags :
  accepted c body →
  gatherStubStatusUrl {| bufio.pending := body; bufio.ending := e |} tags
  = (Val tt,
     [AddFields "nginx"
        {[ "active" := active c;
           "accepts" := accepts c;
           "handled" := handled c;
           "requests" := requests c;
           "reading" := reading c;
           "writing" := writing c;
           "waiting" := waiting c ]}
        tags]).
Proof.
  intros [label l1 l2 l3 l4 rest t0 t1 t2 x3 w1 t4 w2 t5 w3 t6 x4
            ? ? ? ? ? Ha F3 Hv1 Hv2 Hv3 F4 Hv4 Hv5 Hv6].
  unfold gatherStubStatusUrl.
  rewrite ReadString_line, bind_try_ok by done.
  rewrite ReadString_line, bind_try_ok by done.
  rewrite (ParseUint10_numeral _ _ Ha), bind_try_ok.
  rewrite ReadString_line, bind_try_ok by done.
  rewrite ReadString_line, bind_try_ok by done.
  cbv zeta. rewrite F3.
  rewrite (bind_index_ok _ 0 t0), (ParseUint10_numeral _ _ Hv1),
    bind_try_ok by done.
  rewrite (bind_index_ok _ 1 t1), (ParseUint10_numeral _ _ Hv2),
    bind_try_ok by done.
  rewrite (bind_index_ok _ 2 t2), (ParseUint10_numeral _ _ Hv3),
    bind_try_ok by done.
  rewrite ReadString_line, bind_try_ok by done.
  rewrite F4.
  rewrite (bind_index_ok _ 1 t4), (ParseUint10_numeral _ _ Hv4),
    bind_try_ok by done.
  rewrite (bind_index_ok _ 3 t5), (ParseUint10_numeral _ _ Hv5),
    bind_try_ok by done.
  rewrite (bind_index_ok _ 5 t6), (ParseUint10_numeral _ _ Hv6),
    bind_try_ok by done.
  done.
Qed.

(** X1.  [gatherStubStatusUrl] succeeds on exactly the bodies of
    [Layout.accepted]: a first colon; the rest of that line being, once
    trimmed, an unsigned decimal number below [2 ^ 64]; a line that is
    skipped; a line whose first three tokens are such numbers; a line whose
    second, fourth and sixth tokens are such numbers.  The record it then
    emits holds the values these seven numerals denote. *)
Theorem gatherStubStatusUrl_succeeds_iff
    (r : bufio.Reader) (tags : gmap string string) (evs : list Event) :
  gatherStubStatusUrl r tags = (Val tt, evs)
  ↔ ∃ c, accepted c (bufio.pending r)
         ∧ evs = [AddFields "nginx"
                    {[ "active" := active c;
                       "accepts" := accepts c;
                       "handled" := handled c;
                       "requests" := requests c;
                       "reading" := reading c;
                       "writing" := writing c;
                       "waiting" := waiting c ]}
                    tags].
Proof.
  split.
  - unfold gatherStubStatusUrl. intros Hrun.
    apply bind_try_inv in Hrun as ([s0 r1] & H0 & Hrun).
    apply bind_try_inv in Hrun as ([s1 r2] & H1 & Hrun).
    apply bind_try_inv in Hrun as (v0 & Ha%ParseUint10_accepts & Hrun).
    apply bind_try_inv in Hrun as ([s2 r3] & H2 & Hrun).
    apply bind_try_inv in Hrun as ([s3 r4] & H3 & Hrun).
    cbv zeta in Hrun.
    apply bind_index_inv in Hrun as (t0 & Ht0 & Hrun).
    apply bind_try_inv in Hrun as (v1 & Hv1%ParseUint10_accepts & Hrun).
    apply bind_index_inv in Hrun as (t1 & Ht1 & Hrun).
    apply bind_try_inv in Hrun as (v2 & Hv2%ParseUint10_accepts & Hrun).
    apply bind_index_inv in Hrun as (t2 & Ht2 & Hrun).
    apply bind_try_inv in Hrun as (v3 & Hv3%ParseUint10_accepts & Hrun).
    apply bind_try_inv in Hrun as ([s4 r5] & H4 & Hrun).
    apply bind_index_inv in Hrun as (t4 & Ht4 & Hrun).
    apply bind_try_inv in Hrun as (v4 & Hv4%ParseUint10_accepts & Hrun).
    apply bind_index_inv in Hrun as (t5 & Ht5 & Hrun).
    apply bind_try_inv in Hrun as (v5 & Hv5%ParseUint10_accepts & Hrun).
    apply bind_index_inv in Hrun as (t6 & Ht6 & Hrun).
    apply bind_try_inv in Hrun as (v6 & Hv6%ParseUint10_accepts & Hrun).
    injection Hrun as <-.
    apply ReadString_inv in H0 as (label & -> & ? & E0).
    apply ReadString_inv in H1 as (l1 & -> & ? & E1).
    apply ReadString_inv in H2 as (l2 & -> & ? & E2).
    apply ReadString_inv in H3 as (l3 & -> & ? & E3).
    apply ReadString_inv in H4 as (l4 & -> & ? & E4).
    exists {| active := v0; accepts := v1; handled := v2; requests := v3;
              reading := v4; writing := v5; waiting := v6 |}.
    split; [| done].
    rewrite E0, E1, E2, E3, E4.
    destruct (strings.Fields (l3 ++ [LF])) as [| ? [| ? [| ? x3]]] eqn:F3;
      try done.
    destruct (strings.Fields (l4 ++ [LF]))
      as [| w1 [| ? [| w2 [| ? [| w3 [| ? x4]]]]]] eqn:F4; try done.
    cbn in Ht0, Ht1, Ht2, Ht4, Ht5, Ht6.
    injection Ht0 as ->. injection Ht1 as ->. injection Ht2 as ->.
    injection Ht4 as ->. injection Ht5 as ->. injection Ht6 as ->.
    by eapply (mk_accepted _ label l1 l2 l3 l4).
  - intros (c & Hacc & ->). destruct r as [body e]. by apply accepted_parses.
Qed.

(** The steps of the parser keep to [fails_as]. *)
Lemma fails_read e0 {B} r d (k : bytes * bufio.Reader → Op B) :
  bufio.ending r = e0 →
  (∀ line r', bufio.ending r' = e0 → fails_as e0 (k (line, r'))) →
  fails_as e0 (bind (try (bufio.ReadString r d)) k).
Proof.
  intros Hr Hk. pose proof (ReadString_ending r d) as Hend.
  destruct (bufio.ReadString r d) as [[line r'] [e |]] eqn:E.
  - rewrite bind_try_err. left. apply ReadString_error in E. congruence.
  - rewrite bind_try_ok. apply Hk. cbn in Hend. congruence.
Qed.

Lemma fails_parse e0 {B} tok (k : Z → Op B) :
  (∀ v, fails_as e0 (k v)) →
  fails_as e0 (bind (try (strconv.ParseUint10 tok)) k).
Proof.
  intros Hk. destruct (strconv.ParseUint10 tok) as [v [e |]] eqn:E.
  - rewrite bind_try_err. right. exists tok.
    by apply ParseUint10_error in E.
  - rewrite bind_try_ok. apply Hk.
Qed.

Lemma fails_index e0 {A B} (l : list A) i (k : A → Op B) :
  i ≤ 5 → (∀ x, fails_as e0 (k x)) → fails_as e0 (bind (index l i) k).
Proof.
  intros Hi Hk. destruct (l !! i) as [x |] eqn:E.
  - rewrite (bind_index_ok _ _ x) by done. apply Hk.
  - rewrite bind_index_out by done. exists i, (length l).
    apply lookup_ge_None in E. split; [done | lia].
Qed.

Lemma gatherStubStatusUrl_fails_as r tags :
  fails_as (bufio.ending r) (gatherStubStatusUrl r tags).
Proof.
  unfold gatherStubStatusUrl.
  apply fails_read; [done |]; intros _ r1 Hr1.
  apply fails_read; [done |]; intros line1 r2 Hr2.
  apply fails_parse; intros v0.
  apply fails_read; [done |]; intros _ r3 Hr3.
  apply fails_read; [done |]; intros line3 r4 Hr4.
  cbv zeta.
  do 3 (apply fails_index; [lia |]; intros ?; apply fails_parse; intros ?).
  apply fails_read; [done |]; intros line4 r5 Hr5.
  do 3 (apply fails_index; [lia |]; intros ?; apply fails_parse; intros ?).
  done.
Qed.

(** X2.  The ways [gatherStubStatusUrl] fails.  An error it returns is the
    error the body's stream ended with (a read met the end of the stream)
    or the [NumError] of [ParseUint] for a token.  A panic it raises is an
    index out of range, at an index of at most 5 that the token list does
    not reach. *)
Theorem gatherStubStatusUrl_failure_modes
    (r : bufio.Reader) (tags : gmap string string) :
  match gatherStubStatusUrl r tags with
  | (Val _, _) => True
  | (Err e, _) =>
    e = bufio.ending r
    ∨ ∃ tok kind, e = strconv_NumError "ParseUint" tok kind
  | (Panic p, _) =>
    ∃ i len, p = IndexOutOfRange i len ∧ len ≤ i ≤ 5
  end.
Proof. exact (gatherStubStatusUrl_fails_as r tags). Qed.

(** X3.  When the text between the first colon and the end of its line is,
    once trimmed, no unsigned 64-bit decimal number, the parser returns
    the [NumError] of [ParseUint] for that text and records nothing.  The
    error is a range error when the text starts with digits that already
    denote [2 ^ 64] or more (the value is not wrapped around), and a syntax
    error otherwise: for an empty text, a sign, a letter, or a blank
    inside. *)
Theorem gatherStubStatusUrl_bad_active
    (r r1 r2 : bufio.Reader) (x0 line : bytes) (kind : NumErr)
    (tags : gmap string string) :
  bufio.ReadString r ":" = (x0, r1, None) →
  bufio.ReadString r1 LF = (line, r2, None) →
  verdict (strings.TrimSpace line) = Some kind →
  gatherStubStatusUrl r tags
  = (Err (strconv_NumError "ParseUint" (strings.TrimSpace line) kind), []).
Proof.
  intros H0 H1 Hv. unfold gatherStubStatusUrl.
  rewrite H0, bind_try_ok, H1, bind_try_ok, ParseUint10_verdict, Hv.
  by destruct kind.
Qed.


Lemma free_prefix d (s l : bytes) :
  s `prefix_of` l → free d l = true → free d s = true.
Proof. intros [k ->]. rewrite free_app. by intros [? _]%andb_true_iff. Qed.

(** A prefix of a text with a delimiter stops before the delimiter or
    goes beyond it. *)
Lemma prefix_cut d pre rest s :
  s `prefix_of` (pre ++ d :: rest) → free d pre = true →
  free d s = true ∨ ∃ rest', s = pre ++ d :: rest' ∧ rest' `prefix_of` rest.
Proof.
  induction pre as [| c pre IH] in s |- *; intros Hs Hpre.
  - destruct s as [| c s]; [by left |]. right.
    apply prefix_cons_inv_1 in Hs as Hc. apply prefix_cons_inv_2 in Hs.
    subst c. by exists s.
  - destruct s as [| c' s]; [by left |]. cbn in Hs.
    apply prefix_cons_inv_1 in Hs as Hc. apply prefix_cons_inv_2 in Hs.
    subst c'. rewrite free_cons in Hpre.
    apply andb_true_iff in Hpre as [Hc Hpre].
    destruct (IH s Hs Hpre) as [Hfree | (rest' & -> & Hrest)].
    + left. by rewrite free_cons, Hc, Hfree.
    + right. by exists rest'.
Qed.

(** X5.  A page that is cut off anywhere before the newline of its last
    line, be it in the label, inside a number or at the end of a line, is
    rejected with the error the stream ended with ([io_EOF] for a body
    received whole), and nothing is recorded. *)
Theorem gatherStubStatusUrl_truncated
    (c : Counters) (hd b4 s : bytes) (e : error)
    (tags : gmap string string) :
  page_head c hd → states (reading c) (writing c) (waiting c) b4 →
  s `prefix_of` (hd ++ b4) →
  gatherStubStatusUrl {| bufio.pending := s; bufio.ending := e |} tags
  = (Err e, []).
Proof.
  intros [b1 b2 b3 Hb1 Hb2 Hb3] Hb4 Hs.
  apply states_free_LF in Hb4.
  destruct Hb1 as [label p1 n p2 Hlabel Hp1 Hn Hp2].
  destruct Hb2 as [h Hh].
  destruct Hb3 as [p0 n1 g1 n2 g2 n3 p3 Hp0 Hn1 Hg1 Hn2 Hg2 Hn3 Hp3].
  assert (free LF (p1 ++ n ++ p2) = true) as Hc1.
  { rewrite !free_app.
    by rewrite (blanks_free_LF _ Hp1), (blanks_free_LF _ Hp2),
      (numeral_free_LF _ _ Hn). }
  assert (strings.TrimSpace ((p1 ++ n ++ p2) ++ [LF]) = n) as Ht1.
  { rewrite <- !app_assoc.
    apply numeral_text in Hn as [??]. apply line_end in Hp2 as [??].
    apply TrimSpace_token; try done. by apply blanks_spaces. }
  assert (free LF (p0 ++ n1 ++ g1 ++ n2 ++ g2 ++ n3 ++ p3) = true) as Hc3.
  { rewrite !free_app.
    by rewrite (blanks_free_LF _ Hp0), (blanks_free_LF _ Hp3),
      (gap_free_LF _ Hg1), (gap_free_LF _ Hg2), (numeral_free_LF _ _ Hn1),
      (numeral_free_LF _ _ Hn2), (numeral_free_LF _ _ Hn3). }
  pose proof (Fields_counters _ _ _ _ _ _ _ _ _ _
                Hp0 Hn1 Hg1 Hn2 Hg2 Hn3 Hp3) as Hf3.
  revert Hs Hc1 Ht1 Hc3 Hf3.
  generalize (p1 ++ n ++ p2) as c1.
  generalize (p0 ++ n1 ++ g1 ++ n2 ++ g2 ++ n3 ++ p3) as c3.
  intros c3 c1 Hs Hc1 Ht1 Hc3 Hf3.
  rewrite <- !app_assoc in Hs. cbn [app] in Hs.
  unfold gatherStubStatusUrl.
  destruct (prefix_cut _ _ _ _ Hs Hlabel) as [Hfree | (s1 & -> & Hs1)];
    [by rewrite ReadString_end, bind_try_err |].
  rewrite ReadString_line, bind_try_ok by done.
  destruct (prefix_cut _ _ _ _ Hs1 Hc1) as [Hfree | (s2 & -> & Hs2)];
    [by rewrite ReadString_end, bind_try_err |].
  rewrite ReadString_line, bind_try_ok by done.
  rewrite Ht1, (ParseUint10_numeral _ _ Hn), bind_try_ok.
  destruct (prefix_cut _ _ _ _ Hs2 Hh) as [Hfree | (s3 & -> & Hs3)];
    [by rewrite ReadString_end, bind_try_err |].
  rewrite ReadString_line, bind_try_ok by done.
  destruct (prefix_cut _ _ _ _ Hs3 Hc3) as [Hfree | (s4 & -> & Hs4)];
    [by rewrite ReadString_end, bind_try_err |].
  rewrite ReadString_line, bind_try_ok by done.
  cbv zeta. rewrite Hf3.
  rewrite (bind_index_ok _ 0 n1), (ParseUint10_numeral _ _ Hn1),
    bind_try_ok by done.
  rewrite (bind_index_ok _ 1 n2), (ParseUint10_numeral _ _ Hn2),
    bind_try_ok by done.
  rewrite (bind_index_ok _ 2 n3), (ParseUint10_numeral _ _ Hn3),
    bind_try_ok by done.
  by rewrite ReadString_end, bind_try_err by by eapply free_prefix.
Qed.

End Parser.

(** ** More about tags *)
Section MoreTags.
Import Layout Authority.

Lemma cut_unique d (p1 p2 r1 r2 : bytes) :
  free d p1 = true → free d p2 = true →
  p1 ++ d :: r1 = p2 ++ d :: r2 → p1 = p2 ∧ r1 = r2.
Proof.
  induction p1 as [| c p1 IH] in p2 |- *; intros H1 H2 E.
  - destruct p2 as [| c p2]; [by injection E |].
    injection E as <- _. rewrite free_cons, Ascii.eqb_refl in H2. done.
  - destruct p2 as [| c' p2].
    + injection E as -> _. rewrite free_cons, Ascii.eqb_refl in H1. done.
    + injection E as <- E. rewrite free_cons in H1, H2.
      apply andb_true_iff in H1 as [_ H1], H2 as [_ H2].
      by destruct (IH p2 H1 H2 E) as [-> ->].
Qed.

Lemma getTags_split scheme host port path a :
  explicit_port a host port →
  getTags {| Scheme := scheme; Host := S_ a; Path := path |}
  = {[ "server" := S_ host; "port" := S_ port ]}.
Proof.
  intros Hex. unfold getTags, B, S_. cbn [Host].
  rewrite list_ascii_of_string_of_list_ascii.
  by rewrite (SplitHostPort_explicit _ _ _ Hex).
Qed.

Lemma getTags_whole scheme path a :
  (∀ host port, ¬ explicit_port a host port) →
  getTags {| Scheme := scheme; Host := S_ a; Path := path |}
  = {[ "server" := S_ a; "port" := default_port scheme ]}.
Proof.
  intros Hnone. unfold getTags, B, S_, default_port. cbn [Host Scheme].
  rewrite list_ascii_of_string_of_list_ascii.
  destruct (SplitHostPort_outcome a) as [(h & p & E) | (e & E)];
    rewrite E; [| done].
  by apply SplitHostPort_success, Hnone in E.
Qed.

(** X10.  A colon with nothing after it is a port, the empty one: for an
    authority [host:] the [port] tag is the empty string, whatever the
    scheme, and is not replaced by the scheme's default; [server] is the
    host without the colon. *)
Theorem getTags_empty_port (scheme : string) (host : bytes) (path : string) :
  plain host = true →
  getTags {| Scheme := scheme; Host := S_ (host ++ [":"%char]); Path := path |}
  = {[ "server" := S_ host; "port" := "" ]}.
Proof.
  intros Hhost.
  exact (getTags_split scheme host [] path _
           (port_after_name host [] Hhost eq_refl)).
Qed.

(** X11.  An IPv6 literal without a port keeps its brackets: for an
    authority [[host]] the [server] tag is [[host]], brackets included,
    and [port] is the default of the scheme; with a port, [[host]:port],
    the brackets are taken off. *)
Theorem getTags_literal_without_port
    (scheme : string) (host : bytes) (path : string) :
  free "[" host = true → free "]" host = true →
  getTags {| Scheme := scheme;
             Host := S_ ("["%char :: host ++ ["]"%char]); Path := path |}
  = {[ "server" := S_ ("["%char :: host ++ ["]"%char]);
       "port" := default_port scheme ]}
  ∧ ∀ port, plain port = true →
      getTags {| Scheme := scheme;
                 Host := S_ ("["%char :: host ++ "]"%char :: ":"%char :: port);
                 Path := path |}
      = {[ "server" := S_ host; "port" := S_ port ]}.
Proof.
  intros Hopen Hclose. split.
  - apply getTags_whole. intros h p Hex.
    remember ("["%char :: host ++ ["]"%char]) as a eqn:Ea.
    destruct Hex as [h p Hh Hp | h p Hh1 Hh2 Hp].
    + apply plain_inv in Hh as (_ & Hh & _).
      destruct h as [| c h]; [done |]. injection Ea as -> _.
      by rewrite free_cons in Hh.
    + injection Ea as E.
      by destruct (cut_unique "]" h host (":"%char :: p) [] Hh2 Hclose E).
  - intros port Hport. apply getTags_split. by apply port_after_literal.
Qed.

End MoreTags.

(** ** More about the collector *)
Section MoreCollector.
Context `{Collaborators}.
Local Open Scope Z_scope.

Lemma gatherStubStatusUrl_atomic r tags : atomic tags (gatherStubStatusUrl r tags).
Proof.
  unfold gatherStubStatusUrl.
  do 18 (apply atomic_bind; [first [apply pure_try | apply pure_index] |];
         intros; repeat match goal with p : (_ * _)%type |- _ => destruct p end).
  eexists. split; [reflexivity | apply dom_fields].
Qed.

(** X6.  Processing an endpoint issues one request, to [addr.String()],
    before anything else.  Unless the endpoint answers 200 with the
    content type [application/json], that is followed by one record,
    measurement [nginx] with the seven fields and the tags of the
    address, if processing returns nil, and by nothing if it returns an
    error or panics: an endpoint is recorded whole or not at all. *)
Theorem gatherUrl_events (n : Nginx) (a : URL) (c : Client TLSConfig) :
  client n = Some c →
  ∃ evs,
    (gatherUrl n (Some a)).2 = Request (URL_String a) :: evs
    ∧ ((∀ resp, http_Get c (URL_String a) = inl resp →
                StatusCode resp = 200 →
                before ";" (ContentType resp) ≠ "application/json"%string) →
       match (gatherUrl n (Some a)).1 with
       | Val _ =>
         ∃ fields : gmap string Z,
           evs = [AddFields "nginx" fields (getTags a)]
           ∧ dom fields = field_names
       | Err _ | Panic _ => evs = []
       end).
Proof.
  intros Hc. unfold gatherUrl. cbn [deref]. rewrite bind_ret, Hc.
  cbn [deref]. rewrite bind_ret. unfold log at 1. cbn [bind].
  destruct (http_Get c (URL_String a)) as [resp | err]; [| by exists []].
  unfold StatusOK.
  destruct (Z.eqb_spec (StatusCode resp) 200) as [Hs |]; [| by exists []].
  cbn [negb]. rewrite (bind_index_ok _ _ _ _ (Split_head _ _)).
  destruct (String.eqb_spec (before ";" (ContentType resp)) "text/plain").
  { pose proof (gatherStubStatusUrl_atomic
                  (bufio.NewReader (Body resp)) (getTags a)) as Hat.
    destruct (gatherStubStatusUrl _ _) as [[[] | e' | p] evs]; by exists evs. }
  destruct (String.eqb_spec (before ";" (ContentType resp)) "application/json")
    as [Hjson |]; [| by exists []].
  destruct (gatherStatusUrl _ _) as [r evs]. exists evs.
  split; [done |]. intros Hno. by destruct (Hno resp eq_refl Hs).
Qed.

(** X7.  [createHttpClient] returns a client or an error, never both and
    never neither.  A client it returns has a timeout of at least one
    second, the one [effective] gives; that timeout is written back to
    [ResponseTimeout], the only field of the collector that changes; and
    calling it again on the collector it leaves returns the same client and
    changes nothing more.  When the TLS material does not load it returns
    the loader's error and leaves the collector as it was. *)
Theorem createHttpClient_settles (n : Nginx) :
  match createHttpClient n with
  | (Some c, None, n') =>
    Second <= Timeout c
    ∧ Timeout c = effective (ResponseTimeout n)
    ∧ n' = set_ResponseTimeout (Timeout c) n
    ∧ createHttpClient n' = (Some c, None, n')
  | (None, Some e, n') =>
    n' = n
    ∧ GetTLSConfig (SSLCert n) (SSLKey n) (SSLCA n) (InsecureSkipVerify n)
      = inr e
  | _ => False
  end.
Proof.
  unfold createHttpClient, effective.
  destruct (GetTLSConfig _ _ _ _) as [cfg | e] eqn:Htls; [| done].
  destruct n as [urls ca cert key insecure cl rt]. cbn in *.
  destruct (rt <? Second) eqn:E; cbn; rewrite Htls, ?E; cbn.
  - apply Z.ltb_lt in E. split_and!; try done; unfold Second; lia.
  - apply Z.ltb_ge in E. by split_and!.
Qed.

(** The first lines of [Gather] on a collector without a client whose TLS
    material loads. *)
Lemma Gather_builds n cfg :
  client n = None →
  GetTLSConfig (SSLCert n) (SSLKey n) (SSLCA n) (InsecureSkipVerify n)
  = inl cfg →
  let t := effective (ResponseTimeout n) in
  let n' := set_client (Some {| TLSClientConfig := cfg; Timeout := t |})
              (set_ResponseTimeout t n) in
  Gather n = ((rangeUrls n' (Urls n)).1, n', (rangeUrls n' (Urls n)).2).
Proof.
  intros Hc Htls. unfold Gather, createHttpClient, effective.
  rewrite Hc, Htls. destruct n as [urls ca cert key insecure cl rt].
  cbn in *. destruct (rt <? Second); cbn;
    by destruct (rangeUrls _ _).
Qed.

(** X8.  The first cycle of a collector whose TLS material loads builds
    the client, stores it, writes the timeout it settled on back to
    [ResponseTimeout], and polls the configured addresses with that
    client.  The collector is left in that state however the polling
    ends. *)
Theorem Gather_first_cycle (n : Nginx) (cfg : TLSConfig) :
  client n = None →
  GetTLSConfig (SSLCert n) (SSLKey n) (SSLCA n) (InsecureSkipVerify n)
  = inl cfg →
  let t := effective (ResponseTimeout n) in
  let n' := set_client (Some {| TLSClientConfig := cfg; Timeout := t |})
              (set_ResponseTimeout t n) in
  Gather n = ((rangeUrls n' (Urls n)).1, n', (rangeUrls n' (Urls n)).2)
  ∧ Second <= t.
Proof.
  intros Hc Htls. split; [by apply Gather_builds |].
  unfold effective, Second. destruct (Z.ltb_spec (ResponseTimeout n) 1000000000); lia.
Qed.

(** X9.  When the TLS material does not load, [Gather] returns the
    loader's error without starting a goroutine, issuing a request or
    calling the accumulator, and leaves the collector as it was, without a
    client: every later cycle tries to build the client again. *)
Theorem Gather_construction_fails (n : Nginx) (e : error) :
  client n = None →
  GetTLSConfig (SSLCert n) (SSLKey n) (SSLCA n) (InsecureSkipVerify n)
  = inr e →
  Gather n = (Err e, n, [])
  ∧ ∀ k, foldl step n (replicate k Cycle) = n.
Proof.
  intros Hc Htls.
  assert (Gather n = (Err e, n, [])) as HG
    by (unfold Gather, createHttpClient; by rewrite Hc, Htls).
  split; [done |]. intros k. induction k as [| k IH]; [done |].
  cbn [replicate foldl step]. by rewrite HG.
Qed.

(** X12.  A collector as the factory registered by [init] makes it, with
    no address and no setting: if the TLS loader accepts the empty
    settings, its first cycle returns nil, contacts nothing, and leaves
    the collector with a client whose timeout is five seconds and with
    [ResponseTimeout] set to five seconds. *)
Theorem Gather_newNginx (cfg : TLSConfig) :
  GetTLSConfig "" "" "" false = inl cfg →
  Gather newNginx
  = (Val tt,
     set_client (Some {| TLSClientConfig := cfg; Timeout := 5 * Second |})
       (set_ResponseTimeout (5 * Second) newNginx),
     []).
Proof.
  intros Htls. by rewrite (Gather_builds newNginx cfg eq_refl Htls).
Qed.

End MoreCollector.

(** ** What the errors of an endpoint say *)
Section Attribution.
Context `{Collaborators}.
Local Open Scope Z_scope.

(** X13.  The errors of an endpoint.  The errors [gatherUrl] makes itself,
    for a request that failed, a status other than 200 and an unexpected
    content type, have the address in their text.  The error of a
    [text/plain] body that does not parse is passed on as the parser
    returned it, the bare error of the stream or the [NumError] of a
    token: it names neither the address nor the line. *)
Theorem gatherUrl_error_attribution
    (n : Nginx) (a : URL) (c : Client TLSConfig) (e : error) :
  client n = Some c → (gatherUrl n (Some a)).1 = Err e →
  (∃ text, e = fmt_Errorf text ∧ contains (URL_String a) text)
  ∨ ∃ resp,
      http_Get c (URL_String a) = inl resp ∧ StatusCode resp = 200
      ∧ ((before ";" (ContentType resp) = "text/plain"%string
          ∧ (e = io.failure (Body resp)
             ∨ ∃ tok kind, e = strconv_NumError "ParseUint" tok kind))
         ∨ before ";" (ContentType resp) = "application/json"%string).
Proof.
  intros Hc. unfold gatherUrl. cbn [deref]. rewrite bind_ret, Hc.
  cbn [deref]. rewrite bind_ret. unfold log at 1. cbn [bind].
  destruct (http_Get c (URL_String a)) as [resp | err] eqn:Hget.
  2:{ cbn. intros [= <-]. left. eexists. split; [done |].
      by exists "error making HTTP request to "%string, (": " +:+ err). }
  unfold StatusOK.
  destruct (Z.eqb_spec (StatusCode resp) 200) as [Hs |].
  2:{ cbn. intros [= <-]. left. eexists. split; [done |].
      by exists ""%string, (" returned HTTP status " +:+ Status resp). }
  cbn [negb]. rewrite (bind_index_ok _ _ _ _ (Split_head _ _)).
  destruct (String.eqb_spec (before ";" (ContentType resp)) "text/plain")
    as [Hplain |].
  { pose proof (gatherStubStatusUrl_fails_as
                  (bufio.NewReader (Body resp)) (getTags a)) as Hfail.
    destruct (gatherStubStatusUrl _ _) as [[[] | e' | p] evs]; cbn;
      intros [= <-].
    right. exists resp. split_and!; [done .. |]. by left. }
  destruct (String.eqb_spec (before ";" (ContentType resp)) "application/json")
    as [Hjson |].
  { intros _. right. exists resp. split_and!; [done .. |]. by right. }
  cbn. intros [= <-]. left. eexists. split; [done |].
  by exists ""%string,
       (" returned unexpected content type " +:+ before ";" (ContentType resp)).
Qed.

End Attribution.

(** ** Pages with CRLF line ends *)
Section LineEnds.
Import Layout.

Lemma crlf_app a b : crlf (a ++ b) = crlf a ++ crlf b.
Proof. apply flat_map_app. Qed.

Lemma crlf_free s : free LF s = true → crlf s = s.
Proof.
  induction s as [| c s IH]; [done |]. rewrite free_cons.
  intros [Hc Hs]%andb_true_iff. apply negb_true_iff in Hc.
  unfold crlf in *. cbn. by rewrite Hc, IH.
Qed.

Lemma crlf_keeps_free d s :
  d ≠ CR → d ≠ LF → free d s = true → free d (crlf s) = true.
Proof.
  intros Hcr Hlf. induction s as [| c s IH]; [done |]. rewrite free_cons.
  intros [Hc Hs]%andb_true_iff.
  change (crlf (c :: s))
    with ((if Ascii.eqb c LF then [CR; LF] else [c]) ++ crlf s).
  rewrite free_app, IH, andb_true_r by done.
  destruct (Ascii.eqb c LF).
  - rewrite !free_cons.
    destruct (Ascii.eqb_spec CR d); [by subst |].
    by destruct (Ascii.eqb_spec LF d); [subst |].
  - by rewrite free_cons, Hc.
Qed.

Lemma free_CR s : free LF s = true → free LF (s ++ [CR]) = true.
Proof. intros Hs. by rewrite free_app, Hs. Qed.

(** A carriage return and a newline after the last token of a line. *)
Lemma line_end_crlf p :
  blanks p →
  p ++ [CR; LF] ≠ [] ∧ forallb asciiSpace (p ++ [CR; LF]) = true.
Proof.
  intros Hp. split; [by destruct p |].
  rewrite forallb_app, blanks_spaces by done. done.
Qed.

(** X14.  A well-formed page served with CRLF line ends is parsed like the
    same page with LF line ends: the carriage returns count as white space
    around the numbers. *)
Theorem gatherStubStatusUrl_crlf
    (c : Counters) (body : bytes) (e : error) (tags : gmap string string) :
  page c body →
  gatherStubStatusUrl {| bufio.pending := crlf body; bufio.ending := e |} tags
  = (Val tt,
     [AddFields "nginx"
        {[ "active" := active c;
           "accepts" := accepts c;
           "handled" := handled c;
           "requests" := requests c;
           "reading" := reading c;
           "writing" := writing c;
           "waiting" := waiting c ]}
        tags]).
Proof.
  intros [hd b4 rest [b1 b2 b3 Hb1 Hb2 Hb3] Hb4].
  pose proof (states_free_LF _ _ _ _ Hb4) as Hfree4.
  destruct Hb1 as [label p1 n p2 Hlabel Hp1 Hn Hp2].
  destruct Hb2 as [h Hh].
  destruct Hb3 as [p0 n1 g1 n2 g2 n3 p3 Hp0 Hn1 Hg1 Hn2 Hg2 Hn3 Hp3].
  destruct Hb4 as [q0 l1 k1 m1 k2 l2 k3 m2 k4 l3 k5 m3 q6
                     Hq0 Hl1 Hk1 Hm1 Hk2 Hl2 Hk3 Hm2 Hk4 Hl3 Hk5 Hm3 Hq6].
  assert (free LF (p1 ++ n ++ p2) = true) as Hc1.
  { rewrite !free_app.
    by rewrite (blanks_free_LF _ Hp1), (blanks_free_LF _ Hp2),
      (numeral_free_LF _ _ Hn). }
  assert (free LF (p0 ++ n1 ++ g1 ++ n2 ++ g2 ++ n3 ++ p3) = true) as Hc3.
  { rewrite !free_app.
    by rewrite (blanks_free_LF _ Hp0), (blanks_free_LF _ Hp3),
      (gap_free_LF _ Hg1), (gap_free_LF _ Hg2), (numeral_free_LF _ _ Hn1),
      (numeral_free_LF _ _ Hn2), (numeral_free_LF _ _ Hn3). }
  assert (strings.TrimSpace (((p1 ++ n ++ p2) ++ [CR]) ++ [LF]) = n) as Ht1.
  { rewrite <- !app_assoc. cbn [app].
    apply numeral_text in Hn as [??]. apply line_end_crlf in Hp2 as [??].
    apply TrimSpace_token; try done. by apply blanks_spaces. }
  assert (strings.Fields (((p0 ++ n1 ++ g1 ++ n2 ++ g2 ++ n3 ++ p3) ++ [CR])
                            ++ [LF]) = [n1; n2; n3]) as Hf3.
  { pose proof Hn1 as [??]%numeral_text. pose proof Hn2 as [??]%numeral_text.
    pose proof Hn3 as [??]%numeral_text.
    apply gap_spaces in Hg1 as [??], Hg2 as [??].
    apply line_end_crlf in Hp3 as [??].
    unfold strings.Fields. rewrite <- !app_assoc. cbn [app].
    rewrite fieldsLoop_spaces by by apply blanks_spaces.
    do 2 (rewrite fields_token by done).
    rewrite <- (app_nil_r (p3 ++ CR :: [LF])), fields_token by done. done. }
  assert (strings.Fields
            (((q0 ++ l1 ++ k1 ++ m1 ++ k2 ++ l2 ++ k3 ++ m2 ++ k4 ++ l3
                  ++ k5 ++ m3 ++ q6) ++ [CR]) ++ [LF])
          = [l1; m1; l2; m2; l3; m3]) as Hf4.
  { pose proof Hm1 as [??]%numeral_text. pose proof Hm2 as [??]%numeral_text.
    pose proof Hm3 as [??]%numeral_text.
    apply word_text in Hl1 as [??], Hl2 as [??], Hl3 as [??].
    apply gap_spaces in Hk1 as [??], Hk2 as [??], Hk3 as [??],
      Hk4 as [??], Hk5 as [??].
    apply line_end_crlf in Hq6 as [??].
    unfold strings.Fields. rewrite <- !app_assoc. cbn [app].
    rewrite fieldsLoop_spaces by by apply blanks_spaces.
    do 5 (rewrite fields_token by done).
    rewrite <- (app_nil_r (q6 ++ CR :: [LF])), fields_token by done. done. }
  revert Hc1 Ht1 Hc3 Hf3 Hfree4 Hf4.
  generalize (p1 ++ n ++ p2) as c1.
  generalize (p0 ++ n1 ++ g1 ++ n2 ++ g2 ++ n3 ++ p3) as c3.
  generalize (q0 ++ l1 ++ k1 ++ m1 ++ k2 ++ l2 ++ k3 ++ m2 ++ k4 ++ l3
                 ++ k5 ++ m3 ++ q6) as c4.
  intros c4 c3 c1 Hc1 Ht1 Hc3 Hf3 Hfree4 Hf4.
  rewrite !crlf_app, (crlf_free _ Hc1), (crlf_free _ Hh), (crlf_free _ Hc3),
    (crlf_free _ Hfree4).
  change (crlf [":"%char]) with [":"%char].
  change (crlf [LF]) with [CR; LF].
  rewrite <- !app_assoc. cbn [app].
  apply numeral_free_LF in Hn1 as ?, Hn2 as ?, Hn3 as ?.
  replace (crlf label ++ ":"%char :: c1 ++ CR :: LF :: h ++ CR :: LF
             :: c3 ++ CR :: LF :: c4 ++ CR :: LF :: crlf rest)
    with (crlf label ++ ":"%char :: (c1 ++ [CR]) ++ LF :: (h ++ [CR]) ++ LF
            :: (c3 ++ [CR]) ++ LF :: (c4 ++ [CR]) ++ LF :: crlf rest)
    by (by rewrite <- !app_assoc).
  apply accepted_parses.
  eapply (mk_accepted c (crlf label) (c1 ++ [CR]) (h ++ [CR]) (c3 ++ [CR])
            (c4 ++ [CR]) (crlf rest) n1 n2 n3 [] l1 m1 l2 m2 l3 m3 []);
    try done; try by apply free_CR.
  - by apply crlf_keeps_free.
  - by rewrite Ht1.
Qed.


End LineEnds.

(** ** The further properties on the test bench *)
Section LabBench.
Import Sample.
#[local] Existing Instance Lab.bench.
Local Open Scope Z_scope.

(** A number of active connections of [2 ^ 64] is a range error; two
    numbers on the first line are a syntax error. *)
Lemma gatherStubStatusUrl_bad_active_witness :
  gatherStubStatusUrl
    (bufio.NewReader
       {| io.content := Lab.page_overflow; io.failure := io_EOF |}) ∅
  = (Err (strconv_NumError "ParseUint" (B "18446744073709551616") ErrRange),
     [])
  ∧ gatherStubStatusUrl
      (bufio.NewReader
         {| io.content := Lab.page_two_actives; io.failure := io_EOF |}) ∅
    = (Err (strconv_NumError "ParseUint" (B "3 4") ErrSyntax), []).
Proof.
  split.
  - set (r := bufio.NewReader
                {| io.content := Lab.page_overflow; io.failure := io_EOF |}).
    exact (gatherStubStatusUrl_bad_active r
             (bufio.ReadString r ":").1.2
             (bufio.ReadString (bufio.ReadString r ":").1.2 LF).1.2
             (B "Active connections:") (B " 18446744073709551616" ++ [LF])
             ErrRange ∅ eq_refl eq_refl eq_refl).
  - set (r := bufio.NewReader
                {| io.content := Lab.page_two_actives; io.failure := io_EOF |}).
    exact (gatherStubStatusUrl_bad_active r
             (bufio.ReadString r ":").1.2
             (bufio.ReadString (bufio.ReadString r ":").1.2 LF).1.2
             (B "Active connections:") (B " 3 4" ++ [LF])
             ErrSyntax ∅ eq_refl eq_refl eq_refl).
Defined.


(** The page cut in the middle of its second line. *)
Lemma gatherStubStatusUrl_truncated_witness :
  gatherStubStatusUrl
    (bufio.NewReader
       {| io.content := lines ["Active connections: 3"] ++ B "server acc";
          io.failure := io_EOF |}) ∅
  = (Err io_EOF, []).
Proof.
  refine (gatherStubStatusUrl_truncated shown _
            (B "Reading: 1 Writing: 2 Waiting: 0") _ io_EOF ∅
            sample_head sample_states _).
  by exists (B "epts handled requests" ++ [LF] ++ lines [" 4 4 5"]
               ++ B "Reading: 1 Writing: 2 Waiting: 0").
Defined.

(** The page with CRLF line ends. *)
Lemma gatherStubStatusUrl_crlf_witness :
  gatherStubStatusUrl
    (bufio.NewReader {| io.content := crlf page; io.failure := io_EOF |}) ∅
  = (Val tt,
     [AddFields "nginx"
        {[ "active" := 3; "accepts" := 4; "handled" := 4; "requests" := 5;
           "reading" := 1; "writing" := 2; "waiting" := 0 ]}
        ∅]).
Proof. exact (gatherStubStatusUrl_crlf shown page io_EOF ∅ sample_page). Defined.

(** The healthy endpoint: one request, then one record. *)
Lemma gatherUrl_events_witness :
  ∃ evs,
    (gatherUrl Lab.running (Some (url "localhost" "/status"))).2
    = Request "http://localhost/status" :: evs
    ∧ ∃ fields : gmap string Z,
        evs = [AddFields "nginx" fields
                 {[ "server" := "localhost"; "port" := "80" ]}]
        ∧ dom fields = field_names.
Proof.
  destruct (gatherUrl_events Lab.running (url "localhost" "/status")
              {| TLSClientConfig := tt; Timeout := 5 * Second |} eq_refl)
    as (evs & E & Hrest).
  exists evs. split; [exact E |].
  assert ((gatherUrl Lab.running (Some (url "localhost" "/status"))).1
          = Val tt) as Hv by (vm_compute; reflexivity).
  rewrite Hv in Hrest. apply Hrest.
  intros resp [= <-] _. vm_compute. discriminate.
Defined.

(** The endpoint that serves the page without its last newline: the
    error is the bare [io_EOF]. *)
Lemma gatherUrl_error_attribution_witness :
  (gatherUrl Lab.running (Some (url "e.example" "/cut"))).1 = Err io_EOF
  ∧ ((∃ text, io_EOF = fmt_Errorf text
              ∧ contains "http://e.example/cut" text)
     ∨ ∃ resp,
         Lab.serve "http://e.example/cut" = inl resp ∧ StatusCode resp = 200
         ∧ ((before ";" (ContentType resp) = "text/plain"%string
             ∧ (io_EOF = io.failure (Body resp)
                ∨ ∃ tok kind, io_EOF = strconv_NumError "ParseUint" tok kind))
            ∨ before ";" (ContentType resp) = "application/json"%string)).
Proof.
  assert ((gatherUrl Lab.running (Some (url "e.example" "/cut"))).1
          = Err io_EOF) as Hv by (vm_compute; reflexivity).
  split; [exact Hv |].
  exact (gatherUrl_error_attribution Lab.running (url "e.example" "/cut")
           {| TLSClientConfig := tt; Timeout := 5 * Second |} io_EOF
           eq_refl Hv).
Defined.

(** A first cycle with a requested timeout of 200 ms. *)
Lemma Gather_first_cycle_witness :
  let n := fresh ["http://a.example/error"] 200000000 in
  (Gather n).1.2
  = @set_client Sample.bench
      (Some {| TLSClientConfig := tt; Timeout := 5000000000 |})
      (set_ResponseTimeout 5000000000 n)
  ∧ ResponseTimeout (Gather n).1.2 = 5000000000.
Proof.
  intros n.
  destruct (Gather_first_cycle n tt eq_refl eq_refl) as [HG _].
  rewrite HG. split; reflexivity.
Defined.

(** A certificate that cannot be loaded: three cycles later the collector
    is as it was. *)
Lemma Gather_construction_fails_witness :
  Gather Lab.broken
  = (Err (foreign_Error "open /missing.pem: no such file or directory"),
     Lab.broken, [])
  ∧ foldl step Lab.broken (replicate 3 Cycle) = Lab.broken.
Proof.
  destruct (Gather_construction_fails Lab.broken _ eq_refl eq_refl)
    as [HG Hk].
  split; [exact HG | exact (Hk 3%nat)].
Defined.

(** The collector of [init] on the bench. *)
Lemma Gather_newNginx_witness :
  Gather newNginx
  = (Val tt,
     set_client (Some {| TLSClientConfig := tt; Timeout := 5000000000 |})
       (set_ResponseTimeout 5000000000 newNginx),
     []).
Proof. exact (Gather_newNginx tt eq_refl). Defined.

(** [http://example.com:/]. *)
Lemma getTags_empty_port_witness :
  getTags {| Scheme := "http"; Host := "example.com:"; Path := "/" |}
  = {[ "server" := "example.com"; "port" := "" ]}.
Proof. exact (getTags_empty_port "http" (B "example.com") "/" eq_refl). Defined.

(** [https://[::1]/status] and [https://[::1]:8443/status]. *)
Lemma getTags_literal_without_port_witness :
  getTags {| Scheme := "https"; Host := "[::1]"; Path := "/status" |}
  = {[ "server" := "[::1]"; "port" := "443" ]}
  ∧ getTags {| Scheme := "https"; Host := "[::1]:8443"; Path := "/status" |}
    = {[ "server" := "::1"; "port" := "8443" ]}.
Proof.
  destruct (getTags_literal_without_port "https" (B "::1") "/status"
              eq_refl eq_refl) as [Hbare Hport].
  split; [exact Hbare | exact (Hport (B "8443") eq_refl)].
Defined.

End LabBench.
